(** * Matching engine: a shallow embedding and its checked properties

    The development follows the Python sources of the engine:

    - [engine/core/order.py]            -> module [Order]
    - [engine/core/order_book.py]       -> modules [SortedDict], [OrderBook]
    - [engine/models/trade.py]          -> module [Trade]
    - [engine/models/fee_calculator.py] -> module [FeeCalculator]
    - [engine/models/advanced_orders.py]-> module [AdvancedOrder]
    - [engine/persistence/wal.py]       -> module [WriteAheadLog]
    - [engine/core/matching_engine.py]  -> module [MatchingEngine]

    Modelling conventions.

    - [Decimal] prices and quantities are integers ([Z]): every value counts
      ticks of one fixed smallest unit.  The operations the engine applies to
      them (addition, subtraction, [min], comparison) are exact in Python's
      [Decimal] and commute with that scaling.  Derived amounts obtained by
      multiplication or division (fees, average fill price) are rationals.
    - Python objects that are shared and mutated in place ([Order] instances,
      referenced from a price level, from the id index and from local
      variables) live in an object store ([heap]); every reference is a
      location [loc].
    - A raised exception is a value of [result]; state changes made before the
      raise persist, as in Python.
    - Wall-clock readings ([timestamp], [create_time], [update_time]) and
      logging / printing are not part of the model.  The time- and uuid-based
      id generator is a counter ([entropy]). *)

From stdpp Require Import base option list gmap strings pretty sorting.
From Stdlib Require Import ZArith QArith Lia.
Local Open Scope Z_scope.

(** ** Exceptions and results *)

Inductive OrderSide := BUY | SELL.
Inductive OrderType := MARKET | LIMIT | IOC | FOK.
Inductive OrderStatus :=
  PENDING | OPEN | PARTIAL | FILLED | CANCELLED | REJECTED | PARTIAL_FILL_CANCELLED.

Global Instance OrderSide_eq_dec : EqDecision OrderSide.
Proof. solve_decision. Defined.
Global Instance OrderType_eq_dec : EqDecision OrderType.
Proof. solve_decision. Defined.
Global Instance OrderStatus_eq_dec : EqDecision OrderStatus.
Proof. solve_decision. Defined.

(** The [.value] of each enum member. *)
Definition side_value (s : OrderSide) : string :=
  match s with BUY => "buy" | SELL => "sell" end.
Definition type_value (t : OrderType) : string :=
  match t with MARKET => "market" | LIMIT => "limit" | IOC => "ioc" | FOK => "fok" end.
Definition status_value (s : OrderStatus) : string :=
  match s with
  | PENDING => "pending" | OPEN => "open" | PARTIAL => "partial"
  | FILLED => "filled" | CANCELLED => "cancelled" | REJECTED => "rejected"
  | PARTIAL_FILL_CANCELLED => "partial_fill_cancelled"
  end.

(** The messages of the [ValueError]s raised by the sources. *)
Inductive ValueMsg :=
| Missing_required_field (field : string)
| Invalid_side (s : string)
| Invalid_order_type (s : string)
| Market_orders_cannot_have_a_price
| Limit_orders_must_have_a_price
| Quantity_must_be_positive
| Cannot_fill (quantity remaining : Z)
| Cannot_cancel_order_in_state (st : OrderStatus)
| Order_already_exists (order_id : string)
| Order_not_found (order_id : string).

Inductive exn :=
| ValueError (msg : ValueMsg)
| NameError (name : string)        (* name '...' is not defined *)
| IndexError                        (* peekitem / popitem on an empty SortedDict *)
| KeyError                          (* dict subscript with a missing key *)
| TypeError                         (* ordering comparison with None *)
| AttributeError (attr : string)    (* missing attribute *)
| ArithmeticError                   (* Decimal division by zero *)
| OutOfFuel.                        (* not a Python exception: the iteration
                                       bound given to a [while] loop of the
                                       model was used up *)

Inductive result (A : Type) :=
| Ok (a : A)
| Raise (e : exn).
Arguments Ok {A} a.
Arguments Raise {A} e.

Definition loc := nat.

(** ** order.py *)

Module Order.

Record t := mk {
  order_id : string;
  symbol : option string;
  side : option OrderSide;
  type : option OrderType;
  price : option Z;
  quantity : Z;
  remaining_qty : Z;
  filled_qty : Z;
  status : OrderStatus;
  client_id : option string
}.

(** [to_dict]: the serialised order.  [quantity] and [original_quantity]
    both carry [self.quantity]; [price] is [None] when [self.price] is
    falsy, that is absent or zero. *)
Record dict := mk_dict {
  d_order_id : string;
  d_symbol : option string;
  d_side : option string;
  d_order_type : option string;
  d_price : option Z;
  d_quantity : Z;
  d_original_quantity : Z;
  d_filled_quantity : Z;
  d_remaining_quantity : Z;
  d_status : string;
  d_client_id : option string
}.

(** Python truthiness of an optional [Decimal]. *)
Definition truthy (d : option Z) : option Z :=
  match d with
  | Some v => if v =? 0 then None else Some v
  | None => None
  end.

(** [Order.__init__]; [order_id] is the id after [order_id or generated]. *)
Definition init (order_id : string) : t :=
  mk order_id None None None None 0 0 0 PENDING None.

Definition set_status (st : OrderStatus) (o : t) : t :=
  mk (order_id o) (symbol o) (side o) (type o) (price o) (quantity o)
     (remaining_qty o) (filled_qty o) st (client_id o).

Definition set_remaining_qty (r : Z) (o : t) : t :=
  mk (order_id o) (symbol o) (side o) (type o) (price o) (quantity o)
     r (filled_qty o) (status o) (client_id o).

(** [initialize]: the fields are assigned first, the checks follow, so the
    object is already modified when a check raises. *)
Definition initialize (o : t) (symbol : string) (side : OrderSide)
    (order_type : OrderType) (quantity : Z) (price : option Z)
    (client_id : option string) : result unit * t :=
  let o' := mk (order_id o) (Some symbol) (Some side) (Some order_type) price
               quantity quantity (filled_qty o) (status o) client_id in
  if bool_decide (order_type = MARKET) && bool_decide (price <> None)
  then (Raise (ValueError Market_orders_cannot_have_a_price), o')
  else if bool_decide (order_type <> MARKET) && bool_decide (price = None)
  then (Raise (ValueError Limit_orders_must_have_a_price), o')
  else if quantity <=? 0
  then (Raise (ValueError Quantity_must_be_positive), o')
  else (Ok tt, o').

(** [can_match_at_price]; comparing a missing price raises [TypeError]. *)
Definition can_match_at_price (o : t) (p : Z) : result bool :=
  if bool_decide (type o = Some MARKET) then Ok true
  else match price o with
       | None => Raise TypeError
       | Some op =>
         if bool_decide (side o = Some BUY) then Ok (p <=? op) else Ok (op <=? p)
       end.

(** [is_marketable(opposing_bbo)]: never without an opposing price; a
    market order always; otherwise by the limit, where comparing a missing
    price raises [TypeError]. *)
Definition is_marketable (o : t) (opposing_bbo : option Z) : result bool :=
  match opposing_bbo with
  | None => Ok false
  | Some bbo =>
    if bool_decide (type o = Some MARKET) then Ok true
    else match price o with
         | None => Raise TypeError
         | Some op =>
           if bool_decide (side o = Some BUY) then Ok (bbo <=? op) else Ok (op <=? bbo)
         end
  end.

(** [fill(quantity, price)] *)
Definition fill (o : t) (quantity : Z) (price : Z) : result unit * t :=
  if remaining_qty o <? quantity
  then (Raise (ValueError (Cannot_fill quantity (remaining_qty o))), o)
  else
    let filled := filled_qty o + quantity in
    let remaining := remaining_qty o - quantity in
    let st := if remaining =? 0 then FILLED else PARTIAL in
    (Ok tt,
     mk (order_id o) (symbol o) (side o) (type o) (Order.price o) (Order.quantity o)
        remaining filled st (client_id o)).

(** [cancel()] *)
Definition cancel (o : t) : result unit * t :=
  if bool_decide (status o = FILLED) || bool_decide (status o = CANCELLED)
     || bool_decide (status o = REJECTED)
  then (Raise (ValueError (Cannot_cancel_order_in_state (status o))), o)
  else (Ok tt, set_status CANCELLED o).

(** [reject()] *)
Definition reject (o : t) : t := set_status REJECTED o.

Definition to_dict (o : t) : dict :=
  mk_dict (order_id o) (symbol o) (side_value <$> side o) (type_value <$> type o)
          (truthy (price o)) (quantity o) (quantity o) (filled_qty o)
          (remaining_qty o) (status_value (status o)) (client_id o).

(** The four terminal states of the order lifecycle. *)
Definition terminal (st : OrderStatus) : bool :=
  match st with
  | FILLED | CANCELLED | REJECTED | PARTIAL_FILL_CANCELLED => true
  | _ => false
  end.

End Order.

(** ** The object store

    [Order] instances are heap objects.  A location is an index into the
    store; allocation appends.  Reading a location that was never allocated
    cannot happen in Python; the model returns the freshly constructed
    anonymous order there, and writing to it changes nothing. *)

Module Heap.

Abbreviation t := (list Order.t).

Definition deref (h : t) (l : loc) : Order.t :=
  default (Order.init "") (h !! l).

Definition store (h : t) (l : loc) (o : Order.t) : t := <[l := o]> h.

Definition alloc (h : t) (o : Order.t) : loc * t := (length h, h ++ [o]).

End Heap.

(** ** order_book.py *)

(** [sortedcontainers.SortedDict] from prices to level queues: an association
    list kept in ascending key order.  A level queue ([collections.deque]) is
    a list of references, oldest first. *)
Module SortedDict.

Abbreviation t := (list (Z * list loc)).

Fixpoint get (k : Z) (d : t) : option (list loc) :=
  match d with
  | [] => None
  | (k', v) :: r => if k =? k' then Some v else get k r
  end.

Definition contains (k : Z) (d : t) : bool :=
  match get k d with Some _ => true | None => false end.

(** [d[k] = v] *)
Fixpoint set (k : Z) (v : list loc) (d : t) : t :=
  match d with
  | [] => [(k, v)]
  | (k', v') :: r =>
    if k <? k' then (k, v) :: d
    else if k =? k' then (k, v) :: r
    else (k', v') :: set k v r
  end.

(** [del d[k]] *)
Fixpoint del (k : Z) (d : t) : t :=
  match d with
  | [] => []
  | (k', v') :: r => if k =? k' then r else (k', v') :: del k r
  end.

(** Python index resolution: a negative index counts from the end. *)
Definition resolve (d : t) (i : Z) : option nat :=
  let n := Z.of_nat (List.length d) in
  let j := if i <? 0 then n + i else i in
  if (0 <=? j) && (j <? n) then Some (Z.to_nat j) else None.

(** [peekitem(i)] *)
Definition peekitem (d : t) (i : Z) : result (Z * list loc) :=
  match resolve d i with
  | Some j => match d !! j with Some kv => Ok kv | None => Raise IndexError end
  | None => Raise IndexError
  end.

(** [popitem(i)]: the removed pair and the remaining dictionary. *)
Definition popitem (d : t) (i : Z) : result (Z * list loc) * t :=
  match resolve d i with
  | Some j =>
    match d !! j with
    | Some kv => (Ok kv, delete j d)
    | None => (Raise IndexError, d)
    end
  | None => (Raise IndexError, d)
  end.

End SortedDict.

(** [deque.remove(x)]: drops the first occurrence, [None] when there is none
    (Python raises [ValueError]).  [Order] defines no [__eq__], so equality is
    object identity. *)
Fixpoint deque_remove (x : loc) (q : list loc) : option (list loc) :=
  match q with
  | [] => None
  | y :: r =>
    if bool_decide (x = y) then Some r
    else match deque_remove x r with
         | Some r' => Some (y :: r')
         | None => None
         end
  end.

Module OrderBook.

(** The cached BBO dictionary.  A [*_qty] or [spread] of [None] stands for
    a key that is absent or maps to [None]; [spread_bps] is a float and is
    not represented. *)
Record bbo := mk_bbo {
  best_bid : option Z;
  best_bid_qty : option Z;
  best_ask : option Z;
  best_ask_qty : option Z;
  spread : option Z
}.

Record t := mk {
  symbol : string;
  bids : SortedDict.t;
  asks : SortedDict.t;
  orders : gmap string loc;
  _bbo_dirty : bool;
  _cached_bbo : bbo
}.

(** [OrderBook.__init__] *)
Definition init (symbol : string) : t :=
  mk symbol [] [] ∅ true (mk_bbo None None None None None).

Definition set_side (s : option OrderSide) (d : SortedDict.t) (b : t) : t :=
  if bool_decide (s = Some BUY)
  then mk (symbol b) d (asks b) (orders b) (_bbo_dirty b) (_cached_bbo b)
  else mk (symbol b) (bids b) d (orders b) (_bbo_dirty b) (_cached_bbo b).

Definition get_side (s : option OrderSide) (b : t) : SortedDict.t :=
  if bool_decide (s = Some BUY) then bids b else asks b.

Definition set_orders (m : gmap string loc) (b : t) : t :=
  mk (symbol b) (bids b) (asks b) m (_bbo_dirty b) (_cached_bbo b).

Definition set_dirty (d : bool) (b : t) : t :=
  mk (symbol b) (bids b) (asks b) (orders b) d (_cached_bbo b).

Definition set_cached (c : bbo) (b : t) : t :=
  mk (symbol b) (bids b) (asks b) (orders b) (_bbo_dirty b) c.

(** [add_order(order)].  The id index is written before the price level.
    A price of [None] cannot be ordered against the [Decimal] keys of the
    side; the model raises the [TypeError] of that comparison (no engine
    path adds an order without a price). *)
Definition add_order (h : Heap.t) (b : t) (l : loc) : result unit * Heap.t * t :=
  let o := Heap.deref h l in
  match orders b !! Order.order_id o with
  | Some _ => (Raise (ValueError (Order_already_exists (Order.order_id o))), h, b)
  | None =>
    let b1 := set_orders (<[Order.order_id o := l]> (orders b)) b in
    match Order.price o with
    | None => (Raise TypeError, h, b1)
    | Some price =>
      let book := get_side (Order.side o) b1 in
      let queue := default [] (SortedDict.get price book) in
      let b2 := set_side (Order.side o) (SortedDict.set price (queue ++ [l]) book) b1 in
      (Ok tt, Heap.store h l (Order.set_status OPEN o), set_dirty true b2)
    end
  end.

(** [remove_order(order_id)]: the removed order, or [None]. *)
Definition remove_order (h : Heap.t) (b : t) (order_id : string) : option loc * t :=
  match orders b !! order_id with
  | None => (None, b)
  | Some l =>
    let o := Heap.deref h l in
    let book := get_side (Order.side o) b in
    let b1 :=
      match Order.price o with
      | None => b
      | Some price =>
        match SortedDict.get price book with
        | None => b
        | Some queue =>
          let queue' := default queue (deque_remove l queue) in
          let book' :=
            if bool_decide (queue' = [])
            then SortedDict.del price book
            else SortedDict.set price queue' book in
          set_side (Order.side o) book' b
        end
      end in
    (Some l, set_dirty true (set_orders (delete order_id (orders b1)) b1))
  end.

(** [get_best_bid()] *)
Definition get_best_bid (b : t) : result (option (Z * list loc)) :=
  match bids b with
  | [] => Ok None
  | _ => match SortedDict.peekitem (bids b) (-1) with
         | Ok kv => Ok (Some kv)
         | Raise e => Raise e
         end
  end.

(** [get_best_ask()]: the emptiness test reads [self.asks], the returned
    item is [self.bids.peekitem(0)]. *)
Definition get_best_ask (b : t) : result (option (Z * list loc)) :=
  match asks b with
  | [] => Ok None
  | _ => match SortedDict.peekitem (bids b) 0 with
         | Ok kv => Ok (Some kv)
         | Raise e => Raise e
         end
  end.

(** [sum(order.remaining_qty for order in queue)] *)
Definition level_qty (h : Heap.t) (queue : list loc) : Z :=
  foldr (fun l acc => Order.remaining_qty (Heap.deref h l) + acc) 0 queue.

(** [_recalculate_bbo()].  The cache is assigned before the spread is
    computed; dividing by a best bid of zero raises after that assignment. *)
Definition _recalculate_bbo (h : Heap.t) (b : t) : result unit * t :=
  match get_best_bid b with
  | Raise e => (Raise e, b)
  | Ok bid_item =>
    match get_best_ask b with
    | Raise e => (Raise e, b)
    | Ok ask_item =>
      let qty := from_option (fun kv : Z * list loc => level_qty h (snd kv)) 0 in
      let c := mk_bbo (fst <$> bid_item) (Some (qty bid_item))
                      (fst <$> ask_item) (Some (qty ask_item)) None in
      match bid_item, ask_item with
      | Some (bp, _), Some (ap, _) =>
        let c' := mk_bbo (best_bid c) (best_bid_qty c) (best_ask c)
                         (best_ask_qty c) (Some (ap - bp)) in
        if bp =? 0 then (Raise ArithmeticError, set_cached c' b)
        else (Ok tt, set_dirty false (set_cached c' b))
      | _, _ => (Ok tt, set_dirty false (set_cached c b))
      end
    end
  end.

(** [get_bbo()] *)
Definition get_bbo (h : Heap.t) (b : t) : result bbo * t :=
  if _bbo_dirty b then
    match _recalculate_bbo h b with
    | (Ok _, b') => (Ok (_cached_bbo b'), b')
    | (Raise e, b') => (Raise e, b')
    end
  else (Ok (_cached_bbo b), b).

(** [get_depth(levels)]: the top levels per side as (price, total quantity);
    bids from the highest price down, asks from the lowest price up. *)
Definition get_depth (h : Heap.t) (b : t) (levels : Z) : list (Z * Z) * list (Z * Z) :=
  let agg := fun kv : Z * list loc => (fst kv, level_qty h (snd kv)) in
  (agg <$> take (Z.to_nat levels) (reverse (bids b)),
   agg <$> take (Z.to_nat levels) (asks b)).

(** [get_orders_at_price(side, price)] *)
Definition get_orders_at_price (b : t) (side : OrderSide) (price : Z)
    : option (list loc) :=
  if bool_decide (side = BUY) then SortedDict.get price (bids b)
  else SortedDict.get price (asks b).



(** [get_order(order_id)] *)
Definition get_order (b : t) (order_id : string) : option loc :=
  orders b !! order_id.

End OrderBook.

(** ** Requests

    The order request dictionary handed to [submit_order].  A field of
    [None] is a key that is missing (or, for the optional keys, maps to a
    falsy value); numerals are taken as well-formed, so [Decimal(str(..))]
    yields the number carried here. *)
Module OrderData.

Record t := mk {
  order_id : option string;
  symbol : option string;
  order_type : option string;
  side : option string;
  quantity : option Z;
  price : option Z;
  client_id : option string
}.

End OrderData.

(** [str.lower()] on ASCII letters. *)
Definition lower_ascii (c : Ascii.ascii) : Ascii.ascii :=
  let n := Ascii.nat_of_ascii c in
  if (65 <=? n)%nat && (n <=? 90)%nat then Ascii.ascii_of_nat (n + 32) else c.

Fixpoint lower (s : string) : string :=
  match s with
  | EmptyString => EmptyString
  | String c r => String (lower_ascii c) (lower r)
  end.

(** ** models/trade.py *)

Module Trade.

(** [trade_id] is ["TRD-<epoch>-<counter>"]; the model keeps the counter. *)
Record t := mk {
  trade_id : nat;
  symbol : option string;
  price : Z;
  quantity : Z;
  aggressor_side : option OrderSide;
  maker_order_id : string;
  taker_order_id : string;
  maker_fee : Q;
  taker_fee : Q
}.

End Trade.

(** ** models/fee_calculator.py *)

Module FeeCalculator.

(** [fee_tiers]: (maker rate, taker rate) per tier. *)
Definition fee_tiers (tier : string) : option (Q * Q) :=
  if bool_decide (tier = "default") then Some (1 # 1000, 2 # 1000)%Q
  else if bool_decide (tier = "vip") then Some (5 # 10000, 15 # 10000)%Q
  else None.

(** [calculate_fees(...)["fee_amount"]] *)
Definition calculate_fees (price quantity : Z) (is_maker : bool)
    (client_tier : string) : Q :=
  let tier := default (1 # 1000, 2 # 1000)%Q (fee_tiers client_tier) in
  let fee_rate := if is_maker then fst tier else snd tier in
  (inject_Z price * inject_Z quantity * fee_rate)%Q.

End FeeCalculator.

(** ** models/advanced_orders.py *)

Inductive AdvancedOrderType := STOP_LOSS | STOP_LIMIT | TAKE_PROFIT.

Global Instance AdvancedOrderType_eq_dec : EqDecision AdvancedOrderType.
Proof. solve_decision. Defined.

Definition advanced_type_value (k : AdvancedOrderType) : string :=
  match k with
  | STOP_LOSS => "stop_loss" | STOP_LIMIT => "stop_limit" | TAKE_PROFIT => "take_profit"
  end.

(** [AdvancedOrderType(value)] *)
Definition advanced_type_of_value (s : string) : option AdvancedOrderType :=
  if bool_decide (s = "stop_loss") then Some STOP_LOSS
  else if bool_decide (s = "stop_limit") then Some STOP_LIMIT
  else if bool_decide (s = "take_profit") then Some TAKE_PROFIT
  else None.

Module AdvancedOrder.

(** [side] is the raw request string. *)
Record t := mk {
  order_id : string;
  symbol : string;
  side : string;
  quantity : Z;
  order_type : AdvancedOrderType;
  trigger_price : Z;
  limit_price : option Z;
  client_id : option string;
  activated : bool
}.

Definition set_activated (a : bool) (o : t) : t :=
  mk (order_id o) (symbol o) (side o) (quantity o) (order_type o)
     (trigger_price o) (limit_price o) (client_id o) a.

(** [check_trigger(current_price)]: the answer and the order with its
    [activated] flag updated. *)
Definition check_trigger (o : t) (current_price : Z) : bool * t :=
  if activated o then (false, o)
  else
    let trigger :=
      if bool_decide (side o = "buy") then
        if bool_decide (order_type o = STOP_LOSS) || bool_decide (order_type o = STOP_LIMIT)
        then current_price <=? trigger_price o
        else trigger_price o <=? current_price
      else
        if bool_decide (order_type o = STOP_LOSS) || bool_decide (order_type o = STOP_LIMIT)
        then trigger_price o <=? current_price
        else current_price <=? trigger_price o in
    (trigger, set_activated trigger o).

(** [to_limit_order()]: the request that is submitted on trigger. *)
Definition to_limit_order (o : t) : OrderData.t :=
  OrderData.mk None (Some (symbol o))
    (Some (if bool_decide (order_type o = STOP_LIMIT) then "limit" else "market"))
    (Some (side o)) (Some (quantity o)) (Order.truthy (limit_price o)) (client_id o).

End AdvancedOrder.

(** ** persistence/wal.py *)

Module WriteAheadLog.

(** One line of the log file; the [timestamp] of a line is not kept. *)
Inductive entry :=
| ORDER_SUBMIT (data : OrderData.t)
| TRADE_EXECUTE (trade_id : nat) (symbol : option string) (price quantity : Z)
                (maker_order_id taker_order_id : string)
| ORDER_CANCEL (order_id : string).

(** The contents of the file at [self.filepath], oldest line first.
    Appending always succeeds in the model ([_write_entry] swallows I/O
    errors). *)
Abbreviation t := (list entry).

Definition _write_entry (w : t) (e : entry) : t := w ++ [e].

(** [log_order_submission(order)]; [order.side.value] and
    [order.type.value] raise on an order that was never initialised. *)
Definition log_order_submission (w : t) (o : Order.t) : result unit * t :=
  match Order.side o, Order.type o with
  | Some s, Some ty =>
    (Ok tt,
     _write_entry w
       (ORDER_SUBMIT
          (OrderData.mk (Some (Order.order_id o)) (Order.symbol o)
             (Some (type_value ty)) (Some (side_value s))
             (Some (Order.quantity o)) (Order.truthy (Order.price o))
             (Order.client_id o))))
  | _, _ => (Raise (AttributeError "value"), w)
  end.

(** [log_trade(trade)] *)
Definition log_trade (w : t) (tr : Trade.t) : t :=
  _write_entry w
    (TRADE_EXECUTE (Trade.trade_id tr) (Trade.symbol tr) (Trade.price tr)
       (Trade.quantity tr) (Trade.maker_order_id tr) (Trade.taker_order_id tr)).

(** [log_order_cancel(order_id)] *)
Definition log_order_cancel (w : t) (order_id : string) : t :=
  _write_entry w (ORDER_CANCEL order_id).

(** [replay()] with no [since_timestamp]: every line, in file order. *)
Definition replay (w : t) : list entry := w.

(** [recover_order_book(matching_engine)]: [submit_order] is the method of
    the engine object passed in; the entries are read once, before any of
    them is re-applied.  The result counts recovered orders and trades. *)
Fixpoint recover_loop {E : Type} (submit_order : OrderData.t -> E -> E)
    (entries : list entry) (orders trades : nat) (e : E) : (nat * nat) * E :=
  match entries with
  | [] => ((orders, trades), e)
  | ORDER_SUBMIT data :: rest =>
    recover_loop submit_order rest (S orders) trades (submit_order data e)
  | TRADE_EXECUTE _ _ _ _ _ _ :: rest =>
    recover_loop submit_order rest orders (S trades) e
  | ORDER_CANCEL _ :: rest =>
    recover_loop submit_order rest orders trades e
  end.

Definition recover_order_book {E : Type} (w : t)
    (submit_order : OrderData.t -> E -> E) (e : E) : (nat * nat) * E :=
  recover_loop submit_order (replay w) 0%nat 0%nat e.

End WriteAheadLog.

(** ** core/matching_engine.py *)

Module MatchingEngine.

Record metrics_t := mk_metrics {
  orders_processed : nat;
  trades_executed : nat;
  total_volume : Z
}.

(** The calls the engine issues to the websocket manager, an external
    collaborator. *)
Inductive broadcast :=
| broadcast_trade (tr : Trade.t)
| broadcast_orderbook (symbol : option string) (depth : list (Z * Z) * list (Z * Z))
| broadcast_bbo (symbol : option string) (b : OrderBook.bbo).

(** The engine object together with the world it acts on.

    - [order_books] is a [dict] in insertion order;
    - [websocket_manager] is [None] or the calls received by the attached
      manager so far;
    - [wal] is the contents of the log file (the [WriteAheadLog] object is
      always present, so [if self.wal] always holds);
    - [metrics] is [None] as long as [__init__] has not assigned it;
    - [heap] is the store of [Order] objects, [entropy] the state of the
      id generator. *)
Record t := mk {
  order_books : list (string * OrderBook.t);
  trade_id_counter : nat;
  websocket_manager : option (list broadcast);
  wal : WriteAheadLog.t;
  trade_history : list Trade.t;
  advanced_orders : gmap string (list AdvancedOrder.t);
  metrics : option metrics_t;
  heap : Heap.t;
  entropy : nat
}.

Definition set_order_books (x : list (string * OrderBook.t)) (e : t) : t :=
  mk x (trade_id_counter e) (websocket_manager e) (wal e) (trade_history e)
     (advanced_orders e) (metrics e) (heap e) (entropy e).
Definition set_websocket_manager (x : option (list broadcast)) (e : t) : t :=
  mk (order_books e) (trade_id_counter e) x (wal e) (trade_history e)
     (advanced_orders e) (metrics e) (heap e) (entropy e).
Definition set_wal (x : WriteAheadLog.t) (e : t) : t :=
  mk (order_books e) (trade_id_counter e) (websocket_manager e) x (trade_history e)
     (advanced_orders e) (metrics e) (heap e) (entropy e).
Definition set_advanced_orders (x : gmap string (list AdvancedOrder.t)) (e : t) : t :=
  mk (order_books e) (trade_id_counter e) (websocket_manager e) (wal e)
     (trade_history e) x (metrics e) (heap e) (entropy e).
Definition set_metrics (x : option metrics_t) (e : t) : t :=
  mk (order_books e) (trade_id_counter e) (websocket_manager e) (wal e)
     (trade_history e) (advanced_orders e) x (heap e) (entropy e).
Definition set_heap (x : Heap.t) (e : t) : t :=
  mk (order_books e) (trade_id_counter e) (websocket_manager e) (wal e)
     (trade_history e) (advanced_orders e) (metrics e) x (entropy e).
Definition set_entropy (x : nat) (e : t) : t :=
  mk (order_books e) (trade_id_counter e) (websocket_manager e) (wal e)
     (trade_history e) (advanced_orders e) (metrics e) (heap e) x.

(** *** Computations that read and write the engine and may raise *)

Definition M (A : Type) := t -> result A * t.

Definition ret {A} (a : A) : M A := fun e => (Ok a, e).
Definition raise {A} (x : exn) : M A := fun e => (Raise x, e).
Definition bind {A B} (m : M A) (k : A -> M B) : M B :=
  fun e => match m e with
           | (Ok a, e') => k a e'
           | (Raise x, e') => (Raise x, e')
           end.
Definition lift {A} (r : result A) : M A := fun e => (r, e).
Definition gets {A} (f : t -> A) : M A := fun e => (Ok (f e), e).
Definition modify (f : t -> t) : M unit := fun e => (Ok tt, f e).

Notation "'do' x <- m ; k" := (bind m (fun x => k))
  (at level 10, x name, m at level 100, k at level 200).
Notation "'do' ' p <- m ; k" := (bind m (fun x => match x with p => k end))
  (at level 10, p pattern, m at level 100, k at level 200).

(** [while cond: body], with [break]. *)
Inductive ctl (St : Type) :=
| Continue (s : St)
| Break (s : St).
Arguments Continue {St} s.
Arguments Break {St} s.

Fixpoint while_ {St} (fuel : nat) (cond : St -> M bool) (body : St -> M (ctl St))
    (s : St) : M St :=
  match fuel with
  | O => raise OutOfFuel
  | S n =>
    do c <- cond s;
    if c then
      do r <- body s;
      match r with
      | Continue s' => while_ n cond body s'
      | Break s' => ret s'
      end
    else ret s
  end.

(** *** The [order_books] dictionary *)

Fixpoint books_get (symbol : string) (bs : list (string * OrderBook.t))
    : option OrderBook.t :=
  match bs with
  | [] => None
  | (s, b) :: r => if bool_decide (s = symbol) then Some b else books_get symbol r
  end.

Fixpoint books_set (symbol : string) (b : OrderBook.t)
    (bs : list (string * OrderBook.t)) : list (string * OrderBook.t) :=
  match bs with
  | [] => [(symbol, b)]
  | (s, b') :: r =>
    if bool_decide (s = symbol) then (s, b) :: r else (s, b') :: books_set symbol b r
  end.

(** [self.order_books[symbol]] *)
Definition get_book (symbol : option string) : M OrderBook.t :=
  fun e => match symbol with
           | Some s => match books_get s (order_books e) with
                       | Some b => (Ok b, e)
                       | None => (Raise KeyError, e)
                       end
           | None => (Raise KeyError, e)
           end.

(** In-place change of the book stored under [symbol]. *)
Definition put_book (symbol : option string) (b : OrderBook.t) : M unit :=
  match symbol with
  | Some s => modify (fun e => set_order_books (books_set s b (order_books e)) e)
  | None => raise KeyError
  end.

Definition deref (l : loc) : M Order.t := gets (fun e => Heap.deref (heap e) l).
Definition store (l : loc) (o : Order.t) : M unit :=
  modify (fun e => set_heap (Heap.store (heap e) l o) e).

(** [order_data[key]] *)
Definition subscript {A} (v : option A) : M A :=
  match v with Some a => ret a | None => raise KeyError end.

(** [__init__] up to, and excluding, [load_recovery_data()]: the state in
    which recovery runs.  [wal_file] is the log found on disk. *)
Definition init_fields (wal_file : WriteAheadLog.t) (entropy : nat) : t :=
  mk [] 0 None wal_file [] ∅ None [] entropy.

(** [initialize_symbol(symbol)] *)
Definition initialize_symbol (symbol : string) : M unit :=
  modify (fun e =>
    match books_get symbol (order_books e) with
    | Some _ => e
    | None => set_order_books (order_books e ++ [(symbol, OrderBook.init symbol)]) e
    end).

(** [Order(order_id)]: a falsy id is replaced by a generated one. *)
Definition new_order (order_id : option string) : M loc :=
  fun e =>
    let given := match order_id with
                 | Some s => if bool_decide (s = "") then None else Some s
                 | None => None
                 end in
    let '(id, e1) := match given with
                     | Some s => (s, e)
                     | None => ("ORD-" +:+ pretty (entropy e), set_entropy (S (entropy e)) e)
                     end in
    let '(l, h) := Heap.alloc (heap e1) (Order.init id) in
    (Ok l, set_heap h e1).

(** [_create_order_from_data(order_data)] *)
Definition _create_order_from_data (order_data : OrderData.t) : M loc :=
  do order <- new_order (OrderData.order_id order_data);
  do side_raw <- subscript (OrderData.side order_data);
  let side_str := lower side_raw in
  do side <- (if bool_decide (side_str = "buy") then ret BUY
              else if bool_decide (side_str = "sell") then ret SELL
              else raise (ValueError (Invalid_side side_str)));
  do type_raw <- subscript (OrderData.order_type order_data);
  let type_str := lower type_raw in
  do order_type <- (if bool_decide (type_str = "market") then ret MARKET
                    else if bool_decide (type_str = "limit") then ret LIMIT
                    else if bool_decide (type_str = "ioc") then ret IOC
                    else if bool_decide (type_str = "fok") then ret FOK
                    else raise (ValueError (Invalid_order_type type_str)));
  do quantity <- subscript (OrderData.quantity order_data);
  let price := OrderData.price order_data in
  do symbol <- subscript (OrderData.symbol order_data);
  do o <- deref order;
  let '(r, o') := Order.initialize o symbol side order_type quantity price
                    (OrderData.client_id order_data) in
  do _ <- store order o';
  do _ <- lift r;
  ret order.

(** [_generate_trade(maker_order, taker_order, price, quantity)].  Neither
    order has a [client_tier] attribute, so both fees use the default
    tier. *)
Definition _generate_trade (maker_order taker_order : loc) (price quantity : Z)
    : M Trade.t :=
  fun e =>
    let c := S (trade_id_counter e) in
    let maker := Heap.deref (heap e) maker_order in
    let taker := Heap.deref (heap e) taker_order in
    let trade :=
      Trade.mk c (Order.symbol maker) price quantity (Order.side taker)
        (Order.order_id maker) (Order.order_id taker)
        (FeeCalculator.calculate_fees price quantity true "default")
        (FeeCalculator.calculate_fees price quantity false "default") in
    (Ok trade,
     mk (order_books e) c (websocket_manager e)
        (WriteAheadLog.log_trade (wal e) trade) (trade_history e ++ [trade])
        (advanced_orders e) (metrics e) (heap e) (entropy e)).

(** The two [price_check] lambdas of [_match_order]; ordering [None]
    against a [Decimal] raises. *)
Definition price_check (is_buy : bool) (order_price : option Z) (book_price : Z)
    : result bool :=
  match order_price with
  | None => Raise TypeError
  | Some p => Ok (if is_buy then book_price <=? p else p <=? book_price)
  end.

(** The best item of the opposing side: [peekitem(0)] (lowest ask) for a
    buyer, [peekitem(-1)] (highest bid) for a seller. *)
Definition best_index (is_buy : bool) : Z := if is_buy then 0 else -1.

(** The [for resting_order in order_queue] loop of
    [_can_fill_completely]. *)
Fixpoint dry_level (h : Heap.t) (order_queue : list loc) (remaining_qty : Z) : Z :=
  match order_queue with
  | [] => remaining_qty
  | resting_order :: rest =>
    if remaining_qty <=? 0 then remaining_qty
    else
      let available_qty := Order.remaining_qty (Heap.deref h resting_order) in
      let fill_qty := Z.min remaining_qty available_qty in
      dry_level h rest (remaining_qty - fill_qty)
  end.

(** The [while] loop of [_can_fill_completely] on the copied side. *)
Fixpoint dry_run (fuel : nat) (h : Heap.t) (is_buy : bool) (order_price : option Z)
    (remaining_qty : Z) (temp_opposing_book : SortedDict.t) : result bool :=
  match fuel with
  | O => Raise OutOfFuel
  | S n =>
    if (0 <? remaining_qty) && negb (bool_decide (temp_opposing_book = [])) then
      match SortedDict.peekitem temp_opposing_book (best_index is_buy) with
      | Raise x => Raise x
      | Ok (best_price, order_queue) =>
        match price_check is_buy order_price best_price with
        | Raise x => Raise x
        | Ok false => Ok false
        | Ok true =>
          let remaining_qty' := dry_level h order_queue remaining_qty in
          if 0 <? remaining_qty' then
            dry_run n h is_buy order_price remaining_qty'
              (snd (SortedDict.popitem temp_opposing_book (best_index is_buy)))
          else dry_run n h is_buy order_price remaining_qty' temp_opposing_book
        end
      end
    else Ok (remaining_qty =? 0)
  end.

(** [_can_fill_completely(order, opposing_book, price_check)].  The copy is
    shallow: it shares the level queues, which the function only reads. *)
Definition _can_fill_completely (h : Heap.t) (order : Order.t)
    (opposing_book : SortedDict.t) : result bool :=
  if negb (bool_decide (Order.type order = Some FOK)) then Ok true
  else
    dry_run (S (List.length opposing_book)) h
      (bool_decide (Order.side order = Some BUY)) (Order.price order)
      (Order.remaining_qty order) opposing_book.

(** *** The matching walk *)

(** [opposing_book]: the asks for a buyer, the bids for a seller. *)
Definition opposing (is_buy : bool) (b : OrderBook.t) : SortedDict.t :=
  if is_buy then OrderBook.asks b else OrderBook.bids b.

Definition set_opposing (is_buy : bool) (d : SortedDict.t) (b : OrderBook.t)
    : OrderBook.t :=
  if is_buy
  then OrderBook.mk (OrderBook.symbol b) (OrderBook.bids b) d (OrderBook.orders b)
         (OrderBook._bbo_dirty b) (OrderBook._cached_bbo b)
  else OrderBook.mk (OrderBook.symbol b) d (OrderBook.asks b) (OrderBook.orders b)
         (OrderBook._bbo_dirty b) (OrderBook._cached_bbo b).

(** The name read by the loop test of [_match_order]; it is bound nowhere. *)
Definition oppsing_boook : M SortedDict.t := raise (NameError "oppsing_boook").

(** [order_queue]: the deque object found at position [idx] of the opposing
    side when the level was peeked. *)
Definition level_queue (symbol : option string) (is_buy : bool) (idx : nat)
    : M (list loc) :=
  do b <- get_book symbol;
  ret (default [] (snd <$> (opposing is_buy b !! idx))).

(** [order_queue.popleft()] *)
Definition popleft (symbol : option string) (is_buy : bool) (idx : nat) : M unit :=
  do b <- get_book symbol;
  match opposing is_buy b !! idx with
  | Some (k, _ :: rest) =>
    put_book symbol (set_opposing is_buy (<[idx := (k, rest)]> (opposing is_buy b)) b)
  | _ => raise IndexError
  end.

(** Test of the inner loop: [remaining_qty > 0 and order_queue]. *)
Definition level_cond (symbol : option string) (is_buy : bool) (idx : nat)
    (s : Z * list Trade.t) : M bool :=
  do order_queue <- level_queue symbol is_buy idx;
  ret ((0 <? fst s) && negb (bool_decide (order_queue = []))).

(** Body of the inner loop: one fill against the head of the level. *)
Definition level_body (order : loc) (symbol : option string) (is_buy : bool)
    (idx : nat) (best_price : Z) (s : Z * list Trade.t) : M (ctl (Z * list Trade.t)) :=
  let '(remaining_qty, trades) := s in
  do order_queue <- level_queue symbol is_buy idx;
  do resting_order <- match order_queue with
                      | x :: _ => ret x
                      | [] => raise IndexError
                      end;
  do r <- deref resting_order;
  let fill_qty := Z.min remaining_qty (Order.remaining_qty r) in
  do trade <- _generate_trade resting_order order best_price fill_qty;
  let trades := trades ++ [trade] in
  let remaining_qty := remaining_qty - fill_qty in
  do r <- deref resting_order;
  let '(res, r') := Order.fill r fill_qty best_price in
  do _ <- store resting_order r';
  do _ <- lift res;
  do _ <- (if Order.remaining_qty r' =? 0 then
             do _ <- popleft symbol is_buy idx;
             do b <- get_book symbol;
             match OrderBook.orders b !! Order.order_id r' with
             | Some _ =>
               put_book symbol
                 (OrderBook.set_orders (delete (Order.order_id r') (OrderBook.orders b)) b)
             | None => ret tt
             end
           else ret tt);
  ret (Continue (remaining_qty, trades)).

(** Test of the outer loop:
    [remaining_qty > 0 and len(oppsing_boook) > 0]. *)
Definition walk_cond (s : Z * list Trade.t) : M bool :=
  if 0 <? fst s then
    do d <- oppsing_boook;
    ret (0 <? List.length d)%nat
  else ret false.

(** Body of the outer loop: one price level. *)
Definition walk_body (order : loc) (symbol : option string) (is_buy : bool)
    (s : Z * list Trade.t) : M (ctl (Z * list Trade.t)) :=
  let '(remaining_qty, trades) := s in
  do b <- get_book symbol;
  let opposing_book := opposing is_buy b in
  do '(best_price, order_queue) <-
     lift (SortedDict.peekitem opposing_book (best_index is_buy));
  let idx := default 0%nat (SortedDict.resolve opposing_book (best_index is_buy)) in
  do o <- deref order;
  do stop <- (if negb (bool_decide (Order.type o = Some MARKET)) then
                do c <- lift (price_check is_buy (Order.price o) best_price);
                ret (negb c)
              else ret false);
  if stop then ret (Break (remaining_qty, trades))
  else
    do s' <- while_ (S (List.length order_queue)) (level_cond symbol is_buy idx)
               (level_body order symbol is_buy idx best_price) (remaining_qty, trades);
    do order_queue <- level_queue symbol is_buy idx;
    do _ <- (if bool_decide (order_queue = []) then
               do b <- get_book symbol;
               let '(res, d) := SortedDict.popitem (opposing is_buy b) (best_index is_buy) in
               do _ <- put_book symbol (set_opposing is_buy d b);
               do _ <- lift res;
               ret tt
             else ret tt);
    ret (Continue s').

(** [_match_order(order)] *)
Definition _match_order (order : loc) : M (list Trade.t) :=
  do o <- deref order;
  let symbol := Order.symbol o in
  do order_book <- get_book symbol;
  let is_buy := bool_decide (Order.side o = Some BUY) in
  let opposing_book := opposing is_buy order_book in
  let remaining_qty := Order.remaining_qty o in
  do h <- gets heap;
  do can_fill <- (if bool_decide (Order.type o = Some FOK)
                  then lift (_can_fill_completely h o opposing_book)
                  else ret true);
  if negb can_fill then
    do _ <- store order (Order.reject o);
    ret []
  else
    do s <- while_ (S (List.length opposing_book)) walk_cond
              (walk_body order symbol is_buy) (remaining_qty, []);
    do o <- deref order;
    do _ <- store order (Order.set_remaining_qty (fst s) o);
    ret (snd s).

(** *** Remainder policy and response *)

(** The document returned by [submit_order]: the order dictionary with
    [avg_fill_price], or the rejection built by the exception handler
    ([status] is the literal ["rejected"]). *)
Inductive response :=
| OrderResponse (d : Order.dict) (avg_fill_price : option Q)
| ErrorResponse (order_id : string) (error : exn).

Definition response_status (r : response) : string :=
  match r with
  | OrderResponse d _ => Order.d_status d
  | ErrorResponse _ _ => "rejected"
  end.

(** [avg_fill_price]: sum of price x quantity over the sum of quantities,
    absent when nothing was filled. *)
Definition avg_fill_price (trades : list Trade.t) : option Q :=
  let total_filled := foldr (fun tr acc => Trade.quantity tr + acc) 0 trades in
  let notional := foldr (fun tr acc => Trade.price tr * Trade.quantity tr + acc) 0 trades in
  if 0 <? total_filled then Some (Qred (notional # Z.to_pos total_filled)) else None.

(** [order_book.add_order(order)] on the book stored under [symbol]. *)
Definition add_order (symbol : option string) (order : loc) : M unit :=
  do b <- get_book symbol;
  do h <- gets heap;
  let '(res, h', b') := OrderBook.add_order h b order in
  do _ <- modify (set_heap h');
  do _ <- put_book symbol b';
  lift res.

(** [_handle_remaining_quantity(order, trades)] *)
Definition _handle_remaining_quantity (order : loc) (trades : list Trade.t)
    : M response :=
  do o <- deref order;
  do order_book <- get_book (Order.symbol o);
  do _ <-
    (if 0 <? Order.remaining_qty o then
       match Order.type o with
       | Some MARKET =>
         if bool_decide (trades = []) then store order (Order.reject o)
         else store order (Order.set_status PARTIAL o)
       | Some IOC =>
         if negb (bool_decide (trades = []))
         then store order (Order.set_status PARTIAL_FILL_CANCELLED o)
         else store order (Order.reject o)
       | Some FOK => store order (Order.reject o)
       | Some LIMIT =>
         do _ <- add_order (Order.symbol o) order;
         do o' <- deref order;
         store order
           (Order.set_status (if negb (bool_decide (trades = [])) then PARTIAL else OPEN) o')
       | None => ret tt
       end
     else store order (Order.set_status FILLED o));
  do o <- deref order;
  ret (OrderResponse (Order.to_dict o) (avg_fill_price trades)).

(** The metrics update of [submit_order]; reading [self.metrics] before
    [__init__] assigned it raises [AttributeError]. *)
Definition update_metrics (trades : list Trade.t) : M unit :=
  fun e =>
    match metrics e with
    | None => (Raise (AttributeError "metrics"), e)
    | Some m =>
      let m' :=
        if bool_decide (trades = [])
        then mk_metrics (S (orders_processed m)) (trades_executed m) (total_volume m)
        else mk_metrics (S (orders_processed m))
               (trades_executed m + List.length trades)%nat
               (total_volume m + foldr (fun tr acc => Trade.quantity tr + acc) 0 trades) in
      (Ok tt, set_metrics (Some m') e)
    end.

(** [_broadcast_updates(symbol, trades)]: nothing without a manager;
    otherwise one call per trade, then the depth (ten levels) and the BBO of
    the book under [symbol].  Reading the BBO refreshes the cache of that
    book and may raise. *)
Definition send (c : broadcast) : M unit :=
  modify (fun e => set_websocket_manager (option_map (fun cs => cs ++ [c]) (websocket_manager e)) e).

Fixpoint send_trades (trades : list Trade.t) : M unit :=
  match trades with
  | [] => ret tt
  | tr :: rest => do _ <- send (broadcast_trade tr); send_trades rest
  end.

Definition _broadcast_updates (symbol : option string) (trades : list Trade.t) : M unit :=
  do manager <- gets websocket_manager;
  match manager with
  | None => ret tt
  | Some _ =>
    do _ <- send_trades trades;
    do order_book <- get_book symbol;
    do h <- gets heap;
    do _ <- send (broadcast_orderbook symbol (OrderBook.get_depth h order_book 10));
    let '(res, order_book') := OrderBook.get_bbo h order_book in
    do _ <- put_book symbol order_book';
    do b <- lift res;
    send (broadcast_bbo symbol b)
  end.

(** *** Entry points *)

(** The required-field loop of [submit_order]. *)
Definition check_required (order_data : OrderData.t) : M unit :=
  match OrderData.symbol order_data with
  | None => raise (ValueError (Missing_required_field "symbol"))
  | Some _ =>
    match OrderData.order_type order_data with
    | None => raise (ValueError (Missing_required_field "order_type"))
    | Some _ =>
      match OrderData.side order_data with
      | None => raise (ValueError (Missing_required_field "side"))
      | Some _ =>
        match OrderData.quantity order_data with
        | None => raise (ValueError (Missing_required_field "quantity"))
        | Some _ => ret tt
        end
      end
    end
  end.

(** [self.wal.log_order_submission(order)] *)
Definition log_order_submission (order : loc) : M unit :=
  fun e =>
    let '(res, w) := WriteAheadLog.log_order_submission (wal e) (Heap.deref (heap e) order) in
    (res, set_wal w e).

(** The [try] block of [submit_order]. *)
Definition submit_order_try (order_data : OrderData.t) : M response :=
  do _ <- check_required order_data;
  do symbol <- subscript (OrderData.symbol order_data);
  do _ <- initialize_symbol symbol;
  do order <- _create_order_from_data order_data;
  do _ <- log_order_submission order;
  do trades <- _match_order order;
  do response <- _handle_remaining_quantity order trades;
  do _ <- update_metrics trades;
  do _ <- _broadcast_updates (Some symbol) trades;
  ret response.

(** [submit_order(order_data)]: every exception becomes a rejection
    document; what the [try] block changed before raising stays changed. *)
Definition submit_order (order_data : OrderData.t) (e : t) : response * t :=
  match submit_order_try order_data e with
  | (Ok r, e') => (r, e')
  | (Raise x, e') =>
    (ErrorResponse (default "UNKNOWN" (OrderData.order_id order_data)) x, e')
  end.

(** [cancel_order(order_id)]: the scan over [self.order_books.values()].
    [i] is the position of the book at hand; the response is the order
    dictionary and [cancelled_quantity]. *)
Fixpoint cancel_loop (order_id : string) (i : nat)
    (books : list (string * OrderBook.t)) : M (Order.dict * Z) :=
  match books with
  | [] => raise (ValueError (Order_not_found order_id))
  | (s, order_book) :: rest =>
    match OrderBook.get_order order_book order_id with
    | Some order =>
      do o <- deref order;
      if bool_decide (Order.status o = OPEN) || bool_decide (Order.status o = PARTIAL) then
        do h <- gets heap;
        let '(removed, order_book') := OrderBook.remove_order h order_book order_id in
        do _ <- modify (fun e => set_order_books (<[i := (s, order_book')]> (order_books e)) e);
        match removed with
        | Some removed_order =>
          do r <- deref removed_order;
          let '(res, r') := Order.cancel r in
          do _ <- store removed_order r';
          do _ <- lift res;
          do _ <- _broadcast_updates (Order.symbol r') [];
          do r'' <- deref removed_order;
          ret (Order.to_dict r'', Order.remaining_qty r'')
        | None => cancel_loop order_id (S i) rest
        end
      else raise (ValueError (Cannot_cancel_order_in_state (Order.status o)))
    | None => cancel_loop order_id (S i) rest
    end
  end.

Definition cancel_order (order_id : string) : M (Order.dict * Z) :=
  do books <- gets order_books;
  cancel_loop order_id 0 books.

(** [get_order(order_id)] *)
Fixpoint get_order_loop (order_id : string) (h : Heap.t)
    (books : list (string * OrderBook.t)) : option Order.dict :=
  match books with
  | [] => None
  | (_, order_book) :: rest =>
    match OrderBook.get_order order_book order_id with
    | Some order => Some (Order.to_dict (Heap.deref h order))
    | None => get_order_loop order_id h rest
    end
  end.

Definition get_order (order_id : string) (e : t) : option Order.dict :=
  get_order_loop order_id (heap e) (order_books e).

(** [get_orderbook(symbol, depth)]: the bid and ask levels and the BBO of
    the snapshot, or the exception; an unknown symbol is the [ValueError]
    "Symbol ... not found".  Reading the BBO refreshes the cache of the
    book. *)
Inductive orderbook_error :=
| Symbol_not_found (symbol : string)
| Orderbook_raised (x : exn).

Definition get_orderbook (symbol : string) (depth : Z) (e : t)
    : (orderbook_error + (list (Z * Z) * list (Z * Z) * OrderBook.bbo)) * t :=
  match books_get symbol (order_books e) with
  | None => (inl (Symbol_not_found symbol), e)
  | Some order_book =>
    let depth_data := OrderBook.get_depth (heap e) order_book depth in
    let '(res, order_book') := OrderBook.get_bbo (heap e) order_book in
    let e' := set_order_books (books_set symbol order_book' (order_books e)) e in
    match res with
    | Ok bbo => (inr (fst depth_data, snd depth_data, bbo), e')
    | Raise x => (inl (Orderbook_raised x), e')
    end
  end.

(** [get_health()] without the clock readings: the three counters, the
    symbols and the number of indexed orders. *)
Record health := mk_health {
  h_orders_processed : nat;
  h_trades_executed : nat;
  h_total_volume : Z;
  h_active_symbols : list string;
  h_active_orders : nat
}.

Definition get_health (e : t) : result health :=
  match metrics e with
  | None => Raise (AttributeError "metrics")
  | Some m =>
    Ok (mk_health (orders_processed m) (trades_executed m) (total_volume m)
          (fst <$> order_books e)
          (foldr (fun sb acc => (size (OrderBook.orders (snd sb)) + acc)%nat) 0%nat
             (order_books e)))
  end.

(** *** Conditional orders *)

(** The request of [submit_advanced_order]. *)
Record advanced_data := mk_advanced_data {
  ad_order_id : option string;
  ad_symbol : option string;
  ad_side : option string;
  ad_quantity : option Z;
  ad_order_type : option string;
  ad_trigger_price : option Z;
  ad_limit_price : option Z;
  ad_client_id : option string
}.

(** [submit_advanced_order(order_data)]: the registered order, or the
    exception reported in the error document. *)
Definition submit_advanced_order_try (d : advanced_data) : M AdvancedOrder.t :=
  do registry <- gets advanced_orders;
  do order_id <- (match ad_order_id d with
                  | Some s => ret s
                  | None =>
                    do n <- gets entropy;
                    do _ <- modify (set_entropy (S n));
                    ret ("ADV-" +:+ pretty n +:+ "-" +:+ pretty (size registry))
                  end);
  do symbol <- subscript (ad_symbol d);
  do side <- subscript (ad_side d);
  do quantity <- subscript (ad_quantity d);
  do type_str <- subscript (ad_order_type d);
  do order_type <- (match advanced_type_of_value type_str with
                    | Some k => ret k
                    | None => raise (ValueError (Invalid_order_type type_str))
                    end);
  do trigger_price <- subscript (ad_trigger_price d);
  let advanced_order :=
    AdvancedOrder.mk order_id symbol side quantity order_type trigger_price
      (ad_limit_price d) (ad_client_id d) false in
  do _ <- modify (fun e =>
            set_advanced_orders
              (<[symbol := default [] (advanced_orders e !! symbol) ++ [advanced_order]]>
                 (advanced_orders e)) e);
  ret advanced_order.

Definition submit_advanced_order (d : advanced_data) (e : t)
    : result AdvancedOrder.t * t :=
  submit_advanced_order_try d e.

(** The [for] loop of [check_advanced_orders]: the ids of the triggered
    orders and the orders that stay registered. *)
Fixpoint check_loop (current_price : Z) (orders : list AdvancedOrder.t)
    (triggered_orders : list string) (remaining_orders : list AdvancedOrder.t)
    (e : t) : list string * list AdvancedOrder.t * t :=
  match orders with
  | [] => (triggered_orders, remaining_orders, e)
  | order :: rest =>
    let '(trigger, order') := AdvancedOrder.check_trigger order current_price in
    if trigger then
      let regular_order := AdvancedOrder.to_limit_order order' in
      let '(_, e') := submit_order regular_order e in
      check_loop current_price rest
        (triggered_orders ++ [AdvancedOrder.order_id order']) remaining_orders e'
    else
      check_loop current_price rest triggered_orders (remaining_orders ++ [order']) e
  end.

(** [check_advanced_orders(symbol, current_price)]: [None] when the symbol
    has no registry entry, the triggered ids otherwise. *)
Definition check_advanced_orders (symbol : string) (current_price : Z) (e : t)
    : option (list string) * t :=
  match advanced_orders e !! symbol with
  | None => (None, e)
  | Some orders =>
    let '(triggered_orders, remaining_orders, e') :=
      check_loop current_price orders [] [] e in
    (Some triggered_orders,
     set_advanced_orders (<[symbol := remaining_orders]> (advanced_orders e')) e')
  end.

(** *** Start-up *)

(** [load_recovery_data()]: replays the log through [submit_order]. *)
Definition load_recovery_data (e : t) : (nat * nat) * t :=
  WriteAheadLog.recover_order_book (wal e) (fun d e => snd (submit_order d e)) e.

(** [MatchingEngine()]: the fields, then recovery, then the metrics. *)
Definition init (wal_file : WriteAheadLog.t) (entropy : nat) : t :=
  let e := snd (load_recovery_data (init_fields wal_file entropy)) in
  set_metrics (Some (mk_metrics 0 0 0)) e.

End MatchingEngine.

(** ** api/rest_server.py

    The handlers of the order endpoints, as functions of the engine.  A
    handler returns a body or raises [HTTPException(status_code)]; the
    [detail] text is not kept.  An [HTTPException] raised inside a [try]
    whose handler is [except Exception] is caught by that handler.  What
    FastAPI does around a handler (validation of the request body, of the
    response against its [response_model]) is not part of it. *)
Module RestServer.

Inductive http (A : Type) :=
| Returned (body : A)
| HTTPException (status_code : nat).
Arguments Returned {A} body.
Arguments HTTPException {A} status_code.

(** [OrderRequest]: the validated request body; [dict()] has these six keys
    and no [order_id].  Quantity and price arrive as decimal strings; the
    validators let through positive ones only, for which the engine's
    truthiness test on the price is the test for its presence. *)
Record OrderRequest := mk_request {
  r_symbol : string;
  r_order_type : string;
  r_side : string;
  r_quantity : Z;
  r_price : option Z;
  r_client_id : option string
}.

Definition dict (r : OrderRequest) : OrderData.t :=
  OrderData.mk None (Some (r_symbol r)) (Some (r_order_type r)) (Some (r_side r))
    (Some (r_quantity r)) (r_price r) (r_client_id r).

(** [isinstance(e, ValueError)] for the exceptions of the model. *)
Definition is_value_error (x : exn) : bool :=
  match x with ValueError _ => true | _ => false end.

(** [except Exception as e: raise HTTPException(status_code=400, ...)]
    around a handler body: whatever the body raised, an [HTTPException]
    included, leaves as a 400. *)
Definition except_exception {A} (body : http A) : http A :=
  match body with
  | Returned a => Returned a
  | HTTPException _ => HTTPException 400
  end.

(** [POST /api/v1/orders]: a result with an [error] key raises a 400 inside
    the [try]. *)
Definition submit_order (order_request : OrderRequest) (e : MatchingEngine.t)
    : http (Order.dict * option Q) * MatchingEngine.t :=
  let order_data := dict order_request in
  let '(result, e') := MatchingEngine.submit_order order_data e in
  (except_exception
     match result with
     | MatchingEngine.ErrorResponse _ _ => HTTPException 400
     | MatchingEngine.OrderResponse d avg => Returned (d, avg)
     end,
   e').

(** [DELETE /api/v1/orders/{order_id}]: a [ValueError] is a 404, any other
    exception a 400. *)
Definition cancel_order (order_id : string) (e : MatchingEngine.t)
    : http (Order.dict * Z) * MatchingEngine.t :=
  match MatchingEngine.cancel_order order_id e with
  | (Ok result, e') => (Returned result, e')
  | (Raise x, e') =>
    (if is_value_error x then HTTPException 404 else HTTPException 400, e')
  end.

(** [GET /api/v1/orders/{order_id}]: the 404 for a missing order is raised
    inside the [try]. *)
Definition get_order (order_id : string) (e : MatchingEngine.t) : http Order.dict :=
  except_exception
    match MatchingEngine.get_order order_id e with
    | Some order => Returned order
    | None => HTTPException 404
    end.

(** [GET /api/v1/orderbook/{symbol}] *)
Definition get_orderbook (symbol : string) (depth : Z) (e : MatchingEngine.t)
    : http (list (Z * Z) * list (Z * Z) * OrderBook.bbo) * MatchingEngine.t :=
  match MatchingEngine.get_orderbook symbol depth e with
  | (inr result, e') => (Returned result, e')
  | (inl (MatchingEngine.Symbol_not_found _), e') => (HTTPException 404, e')
  | (inl (MatchingEngine.Orderbook_raised x), e') =>
    (if is_value_error x then HTTPException 404 else HTTPException 400, e')
  end.

End RestServer.


(** * Scenarios

    Concrete engines and requests used below.  Quantities are in units of the
    base asset (1 stands for the 1.0 of the tests), prices in quote units. *)

Definition limit_order (side : string) (quantity price : Z) : OrderData.t :=
  OrderData.mk None (Some "BTC-USDT") (Some "limit") (Some side)
    (Some quantity) (Some price) None.

Definition ioc_order (side : string) (quantity price : Z) : OrderData.t :=
  OrderData.mk None (Some "BTC-USDT") (Some "ioc") (Some side)
    (Some quantity) (Some price) None.


(** A new engine started on an empty log. *)
Definition fresh_engine : MatchingEngine.t := MatchingEngine.init [] 0.

(** An initialised LIMIT order object. *)
Definition limit_object (order_id : string) (side : OrderSide) (quantity price : Z)
    : Order.t :=
  snd (Order.initialize (Order.init order_id) "BTC-USDT" side LIMIT quantity
         (Some price) None).

(** The book and object store obtained by placing the given order objects on
    an empty BTC-USDT book with [add_order], in list order. *)
Fixpoint place_all (objects : list Order.t) (h : Heap.t) (b : OrderBook.t)
    : Heap.t * OrderBook.t :=
  match objects with
  | [] => (h, b)
  | o :: rest =>
    let '(l, h1) := Heap.alloc h o in
    let '(_, h2, b2) := OrderBook.add_order h1 b l in
    place_all rest h2 b2
  end.

(** A running engine whose BTC-USDT book rests the given orders; [manager]
    tells whether a websocket manager is attached. *)
Definition engine_resting (objects : list Order.t) (manager : bool) : MatchingEngine.t :=
  let '(h, b) := place_all objects [] (OrderBook.init "BTC-USDT") in
  MatchingEngine.mk [("BTC-USDT", b)] 0 (if manager then Some [] else None) [] [] ∅
    (Some (MatchingEngine.mk_metrics 0 0 0)) h 0.

(** An IOC buyer of 2 @ 50000 as the walk would leave it after one fill of 1,
    and the trade of that fill. *)
Definition ioc_taker_half_filled : Order.t :=
  Order.mk "T1" (Some "BTC-USDT") (Some BUY) (Some IOC) (Some 50000) 2 1 1 PENDING None.

Definition one_trade : Trade.t :=
  Trade.mk 1 (Some "BTC-USDT") 50000 1 (Some BUY) "S1" "T1"
    (FeeCalculator.calculate_fees 50000 1 true "default")
    (FeeCalculator.calculate_fees 50000 1 false "default").





Definition registered (order_id side : string) (kind : AdvancedOrderType) (trigger : Z)
    (limit : option Z) : AdvancedOrder.t :=
  AdvancedOrder.mk order_id "BTC-USDT" side 1 kind trigger limit None false.

(** * Vocabulary of the statements *)

(** [preserves f m]: running [m] leaves the component [f] of the engine as it
    was, whether [m] returns or raises. *)
Definition preserves {F A} (f : MatchingEngine.t -> F) (m : MatchingEngine.M A) : Prop :=
  forall e, f (snd (m e)) = f e.

(** Components that neither a book update nor a call to the websocket
    manager touches; those that no heap update touches either; and those
    that a submission cannot touch at all. *)
Definition view_independent {F} (f : MatchingEngine.t -> F) : Prop :=
  (forall x e, f (MatchingEngine.set_order_books x e) = f e)
  /\ (forall x e, f (MatchingEngine.set_websocket_manager x e) = f e).

Definition book_independent {F} (f : MatchingEngine.t -> F) : Prop :=
  view_independent f
  /\ (forall x e, f (MatchingEngine.set_heap x e) = f e).

Definition core_independent {F} (f : MatchingEngine.t -> F) : Prop :=
  book_independent f
  /\ (forall x e, f (MatchingEngine.set_metrics x e) = f e).

Definition submit_independent {F} (f : MatchingEngine.t -> F) : Prop :=
  core_independent f
  /\ (forall x e, f (MatchingEngine.set_wal x e) = f e)
  /\ (forall x e, f (MatchingEngine.set_entropy x e) = f e).

(** Two books hold the same orders: same price maps, level queues and id
    index (the BBO cache may differ). *)
Definition same_content (b b' : OrderBook.t) : Prop :=
  OrderBook.symbol b = OrderBook.symbol b'
  /\ OrderBook.bids b = OrderBook.bids b'
  /\ OrderBook.asks b = OrderBook.asks b'
  /\ OrderBook.orders b = OrderBook.orders b'.

Definition same_books (bs bs' : list (string * OrderBook.t)) : Prop :=
  Forall2 (fun x y => x.1 = y.1 /\ same_content x.2 y.2) bs bs'.

(** The order object that [_create_order_from_data] builds from a request
    it accepts. *)
Definition created (d : OrderData.t) (o : Order.t) : Prop :=
  Order.symbol o = OrderData.symbol d
  /\ (exists s raw, Order.side o = Some s /\ OrderData.side d = Some raw
                    /\ lower raw = side_value s)
  /\ (exists ty raw, Order.type o = Some ty /\ OrderData.order_type d = Some raw
                     /\ lower raw = type_value ty
                     /\ (ty = MARKET <-> OrderData.price d = None))
  /\ Order.price o = OrderData.price d
  /\ OrderData.quantity d = Some (Order.quantity o)
  /\ Order.remaining_qty o = Order.quantity o
  /\ 0 < Order.quantity o
  /\ Order.filled_qty o = 0
  /\ Order.status o = PENDING
  /\ Order.client_id o = OrderData.client_id d
  /\ (forall id, OrderData.order_id d = Some id -> id <> "" -> Order.order_id o = id).

(** The part of [submit_order]'s [try] block that follows the WAL write. *)
Definition submit_tail (symbol : string) (order : loc)
    : MatchingEngine.M MatchingEngine.response :=
  MatchingEngine.bind (MatchingEngine._match_order order) (fun trades =>
  MatchingEngine.bind (MatchingEngine._handle_remaining_quantity order trades) (fun response =>
  MatchingEngine.bind (MatchingEngine.update_metrics trades) (fun _ =>
  MatchingEngine.bind (MatchingEngine._broadcast_updates (Some symbol) trades) (fun _ =>
  MatchingEngine.ret response)))).

(** The engine once [initialize_symbol] has run. *)
Definition with_symbol (symbol : string) (e : MatchingEngine.t) : MatchingEngine.t :=
  snd (MatchingEngine.initialize_symbol symbol e).

(** The record that [log_order_submission] writes for an order. *)
Definition submit_entry (o : Order.t) : WriteAheadLog.entry :=
  WriteAheadLog.ORDER_SUBMIT
    (OrderData.mk (Some (Order.order_id o)) (Order.symbol o) (type_value <$> Order.type o)
       (side_value <$> Order.side o) (Some (Order.quantity o))
       (Order.truthy (Order.price o)) (Order.client_id o)).

(** The order is a FOK order and the dry run on book [b] answers no. *)
Definition fok_fails (h : list Order.t) (o : Order.t) (b : OrderBook.t) : Prop :=
  Order.type o = Some FOK
  /\ MatchingEngine._can_fill_completely h o
       (MatchingEngine.opposing (bool_decide (Order.side o = Some BUY)) b) = Ok false.

(** The rejection document of [submit_order]'s exception handler. *)
Definition error_response (d : OrderData.t) (x : exn) : MatchingEngine.response :=
  MatchingEngine.ErrorResponse (default "UNKNOWN" (OrderData.order_id d)) x.

(** Submission records as [log_order_submission] writes them for an order
    that passed [initialize]: an id, the enum values in lower case, a
    positive quantity, and a (non-zero) price unless the type is market. *)
Definition is_order_submit (en : WriteAheadLog.entry) : bool :=
  match en with WriteAheadLog.ORDER_SUBMIT _ => true | _ => false end.



(** No book of the engine has [order_id] in its id index. *)
Definition not_indexed (order_id : string) (e : MatchingEngine.t) : Prop :=
  Forall (fun sb : string * OrderBook.t => OrderBook.orders sb.2 !! order_id = None)
    (MatchingEngine.order_books e).

(** Conditional orders: the answer of [check_trigger] at a price, the engine
    after the given orders were promoted in turn, and the registries the
    statements range over (no activated order, no zero limit price). *)
Definition triggers (last_price : Z) (o : AdvancedOrder.t) : bool :=
  fst (AdvancedOrder.check_trigger o last_price).

Definition promote_all (os : list AdvancedOrder.t) (e : MatchingEngine.t)
    : MatchingEngine.t :=
  foldl (fun e o => snd (MatchingEngine.submit_order (AdvancedOrder.to_limit_order o) e))
    e os.


Definition registry_unactivated (e : MatchingEngine.t) : Prop :=
  forall s registry,
    MatchingEngine.advanced_orders e !! s = Some registry ->
    Forall (fun o => AdvancedOrder.activated o = false) registry.








(** The order objects an engine holds on to: the references in the id
    index and in the level queues of both sides of every book. *)
Definition side_refs (d : list (Z * list loc)) : list loc := mjoin (snd <$> d).

Definition book_refs (b : OrderBook.t) : list loc :=
  (map_to_list (OrderBook.orders b)).*2
  ++ side_refs (OrderBook.bids b) ++ side_refs (OrderBook.asks b).

Definition resting (e : MatchingEngine.t) : list loc :=
  mjoin ((fun sb : string * OrderBook.t => book_refs sb.2) <$> MatchingEngine.order_books e).














(** The shape a [SortedDict] of price levels has: keys strictly ascending;
    and the shape the book keeps: no level with an empty queue. *)
Definition sorted_keys (d : list (Z * list loc)) : Prop :=
  StronglySorted Z.lt (fst <$> d).

Definition levels_nonempty (d : list (Z * list loc)) : Prop :=
  Forall (fun kv : Z * list loc => kv.2 <> []) d.

Definition book_wf (b : OrderBook.t) : Prop :=
  sorted_keys (OrderBook.bids b) /\ sorted_keys (OrderBook.asks b)
  /\ levels_nonempty (OrderBook.bids b) /\ levels_nonempty (OrderBook.asks b).


(** The requests [_create_order_from_data] accepts: a side and an order type
    that are known once lower-cased, a symbol, a positive quantity, and a
    price exactly when the type is not market. *)
Definition acceptable (d : OrderData.t) : Prop :=
  (exists sd, OrderData.side d = Some sd /\ (lower sd = "buy" \/ lower sd = "sell"))
  /\ (exists ty, OrderData.order_type d = Some ty
                 /\ (lower ty = "market" \/ lower ty = "limit"
                     \/ lower ty = "ioc" \/ lower ty = "fok")
                 /\ (lower ty = "market" <-> OrderData.price d = None))
  /\ (exists q, OrderData.quantity d = Some q /\ 0 < q)
  /\ OrderData.symbol d <> None.

(** The first required key that a request lacks, in the order in which
    [submit_order] looks for them. *)
Definition first_missing (d : OrderData.t) : option string :=
  match OrderData.symbol d, OrderData.order_type d, OrderData.side d,
        OrderData.quantity d with
  | None, _, _, _ => Some "symbol"
  | _, None, _, _ => Some "order_type"
  | _, _, None, _ => Some "side"
  | _, _, _, None => Some "quantity"
  | _, _, _, _ => None
  end.


(** The engine's books, with the first one that indexes [order_id] singled
    out. *)
Definition first_indexed (order_id : string) (e : MatchingEngine.t)
    (pre : list (string * OrderBook.t)) (s : string) (b : OrderBook.t)
    (post : list (string * OrderBook.t)) (l : loc) : Prop :=
  MatchingEngine.order_books e = pre ++ (s, b) :: post
  /\ Forall (fun sb : string * OrderBook.t => OrderBook.orders sb.2 !! order_id = None) pre
  /\ OrderBook.orders b !! order_id = Some l.

(** The states in which [cancel_order] goes on to cancel:
    [order.status in [OrderStatus.OPEN, OrderStatus.PARTIAL]]. *)
Definition cancellable (st : OrderStatus) : bool :=
  bool_decide (st = OPEN) || bool_decide (st = PARTIAL).

(** [entry["type"] == "TRADE_EXECUTE"] *)
Definition is_trade_execute (en : WriteAheadLog.entry) : bool :=
  match en with WriteAheadLog.TRADE_EXECUTE _ _ _ _ _ _ => true | _ => false end.

(** The request carried by the record that [log_order_submission] writes
    for an order. *)
Definition logged_data (o : Order.t) : OrderData.t :=
  OrderData.mk (Some (Order.order_id o)) (Order.symbol o) (type_value <$> Order.type o)
    (side_value <$> Order.side o) (Some (Order.quantity o))
    (Order.truthy (Order.price o)) (Order.client_id o).

(** The trigger rule [check_trigger] applies to an order whose side is not
    the string ["buy"]. *)
Definition sell_rule (o : AdvancedOrder.t) (current_price : Z) : bool :=
  if bool_decide (AdvancedOrder.order_type o = STOP_LOSS)
     || bool_decide (AdvancedOrder.order_type o = STOP_LIMIT)
  then AdvancedOrder.trigger_price o <=? current_price
  else current_price <=? AdvancedOrder.trigger_price o.



(** A store and a BTC-USDT book resting SELL 3 @ 50000 (S1), BUY 2 @ 49000
    (B1) and BUY 1 @ 49000 (B2), in this order of arrival; a fourth object,
    BUY 4 @ 48000 (B3), is in the store but not on the book. *)
Definition sample_placed : Heap.t * OrderBook.t :=
  place_all [limit_object "S1" SELL 3 50000; limit_object "B1" BUY 2 49000;
             limit_object "B2" BUY 1 49000] [] (OrderBook.init "BTC-USDT").

Definition sample_store : Heap.t := sample_placed.1 ++ [limit_object "B3" BUY 4 48000].

Definition sample_book : OrderBook.t := sample_placed.2.

(** The engine holding that book and store, without a websocket manager. *)
Definition sample_engine : MatchingEngine.t :=
  MatchingEngine.mk [("BTC-USDT", sample_book)] 0 None [] [] ∅
    (Some (MatchingEngine.mk_metrics 0 0 0)) sample_store 0.

(** * Properties *)

(** ** Orders *)

(** C8. [Order.cancel] refuses FILLED, CANCELLED and REJECTED orders and
    leaves them as they are, but its guard does not list the fourth terminal
    state: a PARTIAL_FILL_CANCELLED order is cancelled successfully and
    becomes CANCELLED. *)
Theorem cancel_guard_omits_partial_fill_cancelled (o : Order.t) :
  Order.cancel (Order.set_status FILLED o)
    = (Raise (ValueError (Cannot_cancel_order_in_state FILLED)),
       Order.set_status FILLED o)
  /\ Order.cancel (Order.set_status CANCELLED o)
    = (Raise (ValueError (Cannot_cancel_order_in_state CANCELLED)),
       Order.set_status CANCELLED o)
  /\ Order.cancel (Order.set_status REJECTED o)
    = (Raise (ValueError (Cannot_cancel_order_in_state REJECTED)),
       Order.set_status REJECTED o)
  /\ Order.terminal PARTIAL_FILL_CANCELLED = true
  /\ Order.cancel (Order.set_status PARTIAL_FILL_CANCELLED o)
    = (Ok tt, Order.set_status CANCELLED o).
Proof. repeat split. Qed.

(** ** Order book *)

(** C3. [get_best_ask] tests the asks for emptiness but peeks the bids: on a
    book with a resting ask it returns the lowest bid level, and raises
    [IndexError] when there is no bid.  On the book holding BUY 2 @ 49900 and
    SELL 1 @ 50100 the best ask is reported as 49900 with quantity 2, and
    the BBO derived from it carries the same values. *)
Theorem get_best_ask_peeks_bids :
  (forall s bids a asks idx dirty cached,
      OrderBook.get_best_ask (OrderBook.mk s bids (a :: asks) idx dirty cached)
      = match bids with
        | [] => Raise IndexError
        | kv :: _ => Ok (Some kv)
        end)
  /\ (let e := engine_resting [limit_object "B1" BUY 2 49900;
                               limit_object "S1" SELL 1 50100] false in
      exists b,
        MatchingEngine.books_get "BTC-USDT" (MatchingEngine.order_books e) = Some b
        /\ OrderBook.asks b = [(50100, [1%nat])]
        /\ OrderBook.get_best_ask b = Ok (Some (49900, [0%nat]))
        /\ fst (OrderBook.get_bbo (MatchingEngine.heap e) b)
           = Ok (OrderBook.mk_bbo (Some 49900) (Some 2) (Some 49900) (Some 2) (Some 0)))
  /\ (let e := engine_resting [limit_object "S1" SELL 1 50100] false in
      exists b,
        MatchingEngine.books_get "BTC-USDT" (MatchingEngine.order_books e) = Some b
        /\ OrderBook.asks b = [(50100, [0%nat])]
        /\ OrderBook.get_best_ask b = Raise IndexError).
Proof.
  split; [|split].
  - intros s bids a asks idx dirty cached. unfold OrderBook.get_best_ask. simpl.
    destruct bids as [|kv r]; reflexivity.
  - eexists. split; [vm_compute; reflexivity|]. repeat split.
  - eexists. split; [vm_compute; reflexivity|]. repeat split.
Qed.

(** ** Frame lemmas for engine computations *)

Section Preserves.
Context {F : Type} (f : MatchingEngine.t -> F).

Lemma preserves_ret {A} (a : A) : preserves f (MatchingEngine.ret a).
Proof. intros e. reflexivity. Qed.

Lemma preserves_raise {A} (x : exn) : preserves f (@MatchingEngine.raise A x).
Proof. intros e. reflexivity. Qed.

Lemma preserves_lift {A} (r : result A) : preserves f (MatchingEngine.lift r).
Proof. intros e. reflexivity. Qed.

Lemma preserves_gets {A} (g : MatchingEngine.t -> A) :
  preserves f (MatchingEngine.gets g).
Proof. intros e. reflexivity. Qed.

Lemma preserves_modify (g : MatchingEngine.t -> MatchingEngine.t) :
  (forall e, f (g e) = f e) -> preserves f (MatchingEngine.modify g).
Proof. intros H e. apply H. Qed.

Lemma preserves_bind {A B} (m : MatchingEngine.M A) (k : A -> MatchingEngine.M B) :
  preserves f m -> (forall a, preserves f (k a)) ->
  preserves f (MatchingEngine.bind m k).
Proof.
  intros Hm Hk e. unfold MatchingEngine.bind.
  specialize (Hm e). destruct (m e) as [[a|x] e1]; simpl in *.
  - rewrite Hk. exact Hm.
  - exact Hm.
Qed.

End Preserves.

Lemma heap_view_independent : view_independent MatchingEngine.heap.
Proof. repeat split. Qed.

Lemma wal_book_independent : book_independent MatchingEngine.wal.
Proof. repeat split. Qed.

Lemma trade_history_book_independent : book_independent MatchingEngine.trade_history.
Proof. repeat split. Qed.

Lemma trade_id_counter_book_independent :
  book_independent MatchingEngine.trade_id_counter.
Proof. repeat split. Qed.

Lemma advanced_orders_book_independent :
  book_independent MatchingEngine.advanced_orders.
Proof. repeat split. Qed.

Lemma entropy_book_independent : book_independent MatchingEngine.entropy.
Proof. repeat split. Qed.

Lemma metrics_book_independent : book_independent MatchingEngine.metrics.
Proof. repeat split. Qed.

Section ViewIndependent.
Context {F : Type} (f : MatchingEngine.t -> F) (Hf : view_independent f).

Lemma preserves_deref l : preserves f (MatchingEngine.deref l).
Proof. apply preserves_gets. Qed.

Lemma preserves_get_book s : preserves f (MatchingEngine.get_book s).
Proof.
  intros e. unfold MatchingEngine.get_book.
  destruct s as [s|]; [|reflexivity].
  destruct (MatchingEngine.books_get s _); reflexivity.
Qed.

Lemma preserves_put_book s b : preserves f (MatchingEngine.put_book s b).
Proof.
  destruct s as [s|]; simpl.
  - apply preserves_modify. intros e. apply Hf.
  - apply preserves_raise.
Qed.

Lemma preserves_send c : preserves f (MatchingEngine.send c).
Proof. apply preserves_modify. intros e. apply Hf. Qed.

Lemma preserves_send_trades trades : preserves f (MatchingEngine.send_trades trades).
Proof.
  induction trades as [|tr rest IH]; simpl.
  - apply preserves_ret.
  - apply preserves_bind; [apply preserves_send | intros _; exact IH].
Qed.

Lemma preserves_broadcast_updates s trades :
  preserves f (MatchingEngine._broadcast_updates s trades).
Proof.
  unfold MatchingEngine._broadcast_updates.
  apply preserves_bind; [apply preserves_gets|]. intros [cs|]; [|apply preserves_ret].
  apply preserves_bind; [apply preserves_send_trades|]. intros _.
  apply preserves_bind; [apply preserves_get_book|]. intros b.
  apply preserves_bind; [apply preserves_gets|]. intros h.
  apply preserves_bind; [apply preserves_send|]. intros _.
  destruct (OrderBook.get_bbo h b) as [res b'].
  apply preserves_bind; [apply preserves_put_book|]. intros _.
  apply preserves_bind; [apply preserves_lift|]. intros c.
  apply preserves_send.
Qed.

End ViewIndependent.

Section BookIndependent.
Context {F : Type} (f : MatchingEngine.t -> F) (Hf : book_independent f).

Lemma preserves_store l o : preserves f (MatchingEngine.store l o).
Proof. apply preserves_modify. intros e. apply Hf. Qed.

Lemma preserves_cancel_loop order_id books :
  forall i, preserves f (MatchingEngine.cancel_loop order_id i books).
Proof.
  destruct Hf as [Hv Hh].
  induction books as [|[s b] rest IH]; intros i; simpl.
  - apply preserves_raise.
  - destruct (OrderBook.get_order b order_id) as [l|]; [|apply IH].
    apply preserves_bind; [apply preserves_deref|]. intros o.
    destruct (_ || _); [|apply preserves_raise].
    apply preserves_bind; [apply preserves_gets|]. intros h.
    destruct (OrderBook.remove_order h b order_id) as [removed b'].
    apply preserves_bind; [apply preserves_modify; intros e; apply Hv|]. intros _.
    destruct removed as [r|]; [|apply IH].
    apply preserves_bind; [apply preserves_deref|]. intros o'.
    destruct (Order.cancel o') as [res o''].
    apply preserves_bind; [apply preserves_store|]. intros _.
    apply preserves_bind; [apply preserves_lift|]. intros _.
    apply preserves_bind; [by apply preserves_broadcast_updates|]. intros _.
    apply preserves_bind; [apply preserves_deref|]. intros o3.
    apply preserves_ret.
Qed.

Lemma preserves_cancel_order order_id :
  preserves f (MatchingEngine.cancel_order order_id).
Proof.
  unfold MatchingEngine.cancel_order.
  apply preserves_bind; [apply preserves_gets|]. intros bs.
  apply preserves_cancel_loop.
Qed.

End BookIndependent.

(** ** Matching *)

(** C1. The basic-match scenario on a new engine: SELL LIMIT 1 @ 50000, then
    BUY LIMIT 1 @ 50000.  The loop test of the matching walk reads the
    undefined name [oppsing_boook]; both submissions end in the exception
    handler with a rejection document, no trade is produced, neither order is
    FILLED and the sell order never rests on the book. *)
Theorem basic_match_raises_name_error :
  let '(sell_result, e1) :=
    MatchingEngine.submit_order (limit_order "sell" 1 50000) fresh_engine in
  let '(buy_result, e2) :=
    MatchingEngine.submit_order (limit_order "buy" 1 50000) e1 in
  sell_result = MatchingEngine.ErrorResponse "UNKNOWN" (NameError "oppsing_boook")
  /\ buy_result = MatchingEngine.ErrorResponse "UNKNOWN" (NameError "oppsing_boook")
  /\ MatchingEngine.response_status buy_result <> status_value FILLED
  /\ MatchingEngine.trade_history e2 = []
  /\ Order.status <$> MatchingEngine.heap e2 = [PENDING; PENDING]
  /\ MatchingEngine.order_books e1 = [("BTC-USDT", OrderBook.init "BTC-USDT")]
  /\ MatchingEngine.order_books e2 = [("BTC-USDT", OrderBook.init "BTC-USDT")].
Proof. vm_compute. repeat split; discriminate. Qed.

(** C5. IOC BUY 2 @ 50000 against a resting SELL 1 @ 50000.  Submitted to
    the engine (after the sell was submitted, or with the sell placed on the
    book directly) the order ends in the exception handler: no trade, status
    rejected.  The remainder policy itself, applied to the taker as one fill
    of 1 would leave it, sets PARTIAL_FILL_CANCELLED but reports the
    unfilled remainder 1 as [remaining_quantity], not 0. *)
Theorem ioc_partial_fill_not_reported :
  (let '(_, e1) :=
     MatchingEngine.submit_order (limit_order "sell" 1 50000) fresh_engine in
   let '(r, e2) := MatchingEngine.submit_order (ioc_order "buy" 2 50000) e1 in
   r = MatchingEngine.ErrorResponse "UNKNOWN" (NameError "oppsing_boook")
   /\ MatchingEngine.trade_history e2 = [])
  /\ (let e := engine_resting [limit_object "S1" SELL 1 50000] false in
      let '(r, e') := MatchingEngine.submit_order (ioc_order "buy" 2 50000) e in
      r = MatchingEngine.ErrorResponse "UNKNOWN" (NameError "oppsing_boook")
      /\ MatchingEngine.trade_history e' = []
      /\ MatchingEngine.order_books e' = MatchingEngine.order_books e)
  /\ (let e := MatchingEngine.set_heap [ioc_taker_half_filled] (engine_resting [] false) in
      exists d,
        fst (MatchingEngine._handle_remaining_quantity 0%nat [one_trade] e)
        = Ok (MatchingEngine.OrderResponse d (Some (inject_Z 50000)))
        /\ Order.d_status d = status_value PARTIAL_FILL_CANCELLED
        /\ Order.d_filled_quantity d = 1
        /\ Order.d_remaining_quantity d = 1).
Proof.
  split; [|split].
  - vm_compute. repeat split.
  - vm_compute. repeat split.
  - eexists. vm_compute. repeat split.
Qed.

(** ** Cancel *)

(** C7. [cancel_order] never writes to the log: for every engine and every
    id the log after the call is the log before it.  On the engine resting
    BUY 1 @ 50000 under id O1 (status OPEN), with a websocket manager
    attached, cancelling O1 removes the order from its level and from the
    id index, sets CANCELLED, issues the order-book and BBO broadcasts and
    returns the cancellation document with cancelled quantity 1; no
    ORDER_CANCEL record is appended. *)
Theorem cancel_order_writes_no_wal_record :
  (forall order_id e,
      MatchingEngine.wal (snd (MatchingEngine.cancel_order order_id e))
      = MatchingEngine.wal e)
  /\ (let e := engine_resting [limit_object "O1" BUY 1 50000] true in
      exists d e' b',
        Order.status (Heap.deref (MatchingEngine.heap e) 0%nat) = OPEN
        /\ MatchingEngine.cancel_order "O1" e = (Ok (d, 1), e')
        /\ Order.d_status d = status_value CANCELLED
        /\ Order.status (Heap.deref (MatchingEngine.heap e') 0%nat) = CANCELLED
        /\ MatchingEngine.books_get "BTC-USDT" (MatchingEngine.order_books e') = Some b'
        /\ OrderBook.bids b' = [] /\ OrderBook.orders b' !! "O1" = None
        /\ MatchingEngine.websocket_manager e'
           = Some [MatchingEngine.broadcast_orderbook (Some "BTC-USDT") ([], []);
                   MatchingEngine.broadcast_bbo (Some "BTC-USDT")
                     (OrderBook.mk_bbo None (Some 0) None (Some 0) None)]
        /\ MatchingEngine.wal e' = []
        /\ WriteAheadLog.log_order_cancel (MatchingEngine.wal e) "O1"
           = [WriteAheadLog.ORDER_CANCEL "O1"]).
Proof.
  split.
  - intros order_id e.
    apply (preserves_cancel_order MatchingEngine.wal wal_book_independent).
  - do 3 eexists. vm_compute. repeat split.
Qed.

(** ** The object store *)

Lemma deref_alloc (h k : list Order.t) o :
  Heap.deref (h ++ o :: k) (List.length h) = o.
Proof. unfold Heap.deref. by rewrite list_lookup_middle. Qed.


Lemma store_alloc (h : list Order.t) o o' :
  Heap.store (h ++ [o]) (List.length h) o' = h ++ [o'].
Proof.
  unfold Heap.store. rewrite insert_app_r_alt by lia.
  by rewrite Nat.sub_diag.
Qed.

Lemma deref_store (h : list Order.t) (l : loc) o :
  (l < List.length h)%nat -> Heap.deref (Heap.store h l o) l = o.
Proof. intros H. unfold Heap.deref, Heap.store. by rewrite list_lookup_insert_eq. Qed.


Lemma store_dangling (h : list Order.t) (l : loc) o :
  (List.length h <= l)%nat -> Heap.store h l o = h.
Proof. intros H. unfold Heap.store. by apply list_insert_ge. Qed.

Lemma store_store (h : list Order.t) (l : loc) o o' :
  Heap.store (Heap.store h l o) l o' = Heap.store h l o'.
Proof. unfold Heap.store. apply list_insert_insert_eq. Qed.

Lemma length_store (h : list Order.t) (l : loc) o :
  List.length (Heap.store h l o) = List.length h.
Proof. unfold Heap.store. apply length_insert. Qed.

(** ** Books with the same content *)

Lemma same_content_refl b : same_content b b.
Proof. repeat split. Qed.

Lemma same_content_trans b1 b2 b3 :
  same_content b1 b2 -> same_content b2 b3 -> same_content b1 b3.
Proof. intros (?&?&?&?) (?&?&?&?). repeat split; congruence. Qed.

Lemma same_books_refl bs : same_books bs bs.
Proof. induction bs; constructor; auto using same_content_refl. Qed.

Lemma same_books_trans bs1 bs2 bs3 :
  same_books bs1 bs2 -> same_books bs2 bs3 -> same_books bs1 bs3.
Proof.
  intros H. revert bs3.
  induction H as [|x y l l' [Hk Hc] _ IH]; intros bs3 H'.
  - inversion H'. constructor.
  - inversion H' as [|y' z l2 l3 [Hk' Hc'] Hr]; subst.
    constructor; [|by apply IH].
    split; [congruence|]. eapply same_content_trans; eauto.
Qed.

Lemma books_set_same s b b' bs :
  MatchingEngine.books_get s bs = Some b -> same_content b b' ->
  same_books bs (MatchingEngine.books_set s b' bs).
Proof.
  induction bs as [|[k v] r IH]; simpl; [done|].
  case_bool_decide.
  - intros [= ->] Hc. constructor; [done|apply same_books_refl].
  - intros Hg Hc. constructor; [split; [done|apply same_content_refl]|by apply IH].
Qed.

Lemma books_get_same s bs bs' :
  same_books bs bs' ->
  match MatchingEngine.books_get s bs, MatchingEngine.books_get s bs' with
  | Some b, Some b' => same_content b b'
  | None, None => True
  | _, _ => False
  end.
Proof.
  induction 1 as [|[k v] [k' v'] l l' [Hk Hc] _ IH]; simpl in *; [done|].
  subst k'. case_bool_decide; [exact Hc|exact IH].
Qed.

Lemma get_bbo_same_content h b : same_content b (snd (OrderBook.get_bbo h b)).
Proof.
  unfold OrderBook.get_bbo, OrderBook._recalculate_bbo.
  destruct (OrderBook._bbo_dirty b); [|apply same_content_refl].
  destruct (OrderBook.get_best_bid b) as [bid|x]; [|apply same_content_refl].
  destruct (OrderBook.get_best_ask b) as [ask|x]; [|apply same_content_refl].
  destruct bid as [[bp bq]|], ask as [[ap aq]|]; simpl; try (repeat split; fail).
  destruct (bp =? 0); repeat split.
Qed.

Lemma send_trades_books trades e :
  MatchingEngine.order_books (snd (MatchingEngine.send_trades trades e))
  = MatchingEngine.order_books e.
Proof.
  revert e. induction trades as [|tr rest IH]; intros e; simpl; [done|].
  unfold MatchingEngine.bind. simpl. by rewrite IH.
Qed.

Lemma broadcast_same_books s trades e :
  same_books (MatchingEngine.order_books e)
    (MatchingEngine.order_books (snd (MatchingEngine._broadcast_updates s trades e))).
Proof.
  unfold MatchingEngine._broadcast_updates.
  unfold MatchingEngine.bind at 1. unfold MatchingEngine.gets at 1.
  destruct (MatchingEngine.websocket_manager e) as [cs|]; [|apply same_books_refl].
  unfold MatchingEngine.bind at 1.
  pose proof (send_trades_books trades e) as Ht.
  destruct (MatchingEngine.send_trades trades e) as [[[]|x] e1]; cbn [snd] in *;
    [|rewrite Ht; apply same_books_refl].
  unfold MatchingEngine.bind at 1. unfold MatchingEngine.get_book.
  destruct s as [s|]; [|cbn [snd]; rewrite Ht; apply same_books_refl].
  destruct (MatchingEngine.books_get s (MatchingEngine.order_books e1)) as [b|] eqn:Hb;
    [|cbn [snd]; rewrite Ht; apply same_books_refl].
  unfold MatchingEngine.bind at 1. unfold MatchingEngine.gets at 1.
  unfold MatchingEngine.bind at 1. unfold MatchingEngine.send at 1, MatchingEngine.modify at 1.
  pose proof (get_bbo_same_content (MatchingEngine.heap e1) b) as Hc.
  cbn [MatchingEngine.heap MatchingEngine.set_websocket_manager].
  destruct (OrderBook.get_bbo (MatchingEngine.heap e1) b) as [res b']. cbn [snd] in Hc.
  unfold MatchingEngine.bind at 1.
  unfold MatchingEngine.put_book at 1, MatchingEngine.modify at 1.
  unfold MatchingEngine.bind at 1. unfold MatchingEngine.lift at 1.
  rewrite <- Ht.
  destruct res;
    cbn [snd MatchingEngine.send MatchingEngine.modify MatchingEngine.order_books
           MatchingEngine.set_order_books MatchingEngine.set_websocket_manager];
    (eapply books_set_same; [exact Hb | exact Hc]).
Qed.

(** ** Order construction *)

Ltac mstep :=
  lazymatch goal with
  | |- context [match ?x with Some _ => _ | None => _ end] => destruct x eqn:?
  | |- context [if ?b then _ else _] => destruct b eqn:?
  end; simpl.

Ltac hyps_to_prop :=
  repeat match goal with
         | H : bool_decide _ = true |- _ => apply bool_decide_eq_true in H
         | H : bool_decide _ = false |- _ => apply bool_decide_eq_false in H
         | H : (_ <=? _) = false |- _ => apply Z.leb_gt in H
         | H : (_ <=? _) = true |- _ => apply Z.leb_le in H
         end.

(** Whatever the request, [_create_order_from_data] appends exactly one
    object to the store and may advance the id generator; when it returns,
    the result is the new location and the object is [created]. *)
Lemma create_order_spec d e res e2 :
  MatchingEngine._create_order_from_data d e = (res, e2) ->
  exists o,
    e2 = MatchingEngine.set_heap (MatchingEngine.heap e ++ [o])
           (MatchingEngine.set_entropy (MatchingEngine.entropy e2) e)
    /\ (forall l, res = Ok l -> l = List.length (MatchingEngine.heap e) /\ created d o).
Proof.
  unfold MatchingEngine._create_order_from_data, MatchingEngine.new_order,
    MatchingEngine.bind, MatchingEngine.subscript, MatchingEngine.deref,
    MatchingEngine.store, MatchingEngine.gets, MatchingEngine.modify,
    MatchingEngine.lift, MatchingEngine.ret, MatchingEngine.raise, Heap.alloc.
  destruct d as [oid dsym dty dside dq dp dc]; simpl.
  repeat mstep.
  all: rewrite ?deref_alloc.
  all: unfold Order.initialize; simpl.
  all: repeat mstep.
  all: rewrite ?store_alloc.
  all: intros [= <- <-]; eexists; (split; [reflexivity|]); intros l; try discriminate.
  all: intros [= <-]; split; [reflexivity|].
  all: hyps_to_prop.
  all: unfold created; simpl.
  all: repeat match goal with |- _ /\ _ => split end.
  all: try done.
  all: try (do 2 eexists; repeat split; try done; fail).
  all: try (do 2 eexists; split; [reflexivity|]; split; [reflexivity|]; split; [done|];
            destruct dp; split; intros; try done; try congruence; exfalso; eauto; fail).
  all: try (intros id -> Hne; rewrite bool_decide_false in * by done; congruence).
Qed.

(** ** The matching walk *)

(** The first evaluation of the loop test decides the whole loop: with
    quantity left it raises, without it the loop is skipped. *)
Lemma while_walk_cond body n s :
  MatchingEngine.while_ (S n) MatchingEngine.walk_cond body s =
  if 0 <? fst s then MatchingEngine.raise (NameError "oppsing_boook")
  else MatchingEngine.ret s.
Proof.
  cbn [MatchingEngine.while_].
  unfold MatchingEngine.walk_cond, MatchingEngine.bind, MatchingEngine.oppsing_boook,
    MatchingEngine.raise, MatchingEngine.ret.
  destruct (0 <? fst s); reflexivity.
Qed.

(** [_match_order] in closed form. *)
Lemma match_order_eq order e :
  MatchingEngine._match_order order e =
  let o := Heap.deref (MatchingEngine.heap e) order in
  match Order.symbol o with
  | None => (Raise KeyError, e)
  | Some sym =>
    match MatchingEngine.books_get sym (MatchingEngine.order_books e) with
    | None => (Raise KeyError, e)
    | Some b =>
      let is_buy := bool_decide (Order.side o = Some BUY) in
      match (if bool_decide (Order.type o = Some FOK)
             then MatchingEngine._can_fill_completely (MatchingEngine.heap e) o
                    (MatchingEngine.opposing is_buy b)
             else Ok true) with
      | Raise x => (Raise x, e)
      | Ok false =>
        (Ok [], MatchingEngine.set_heap
                  (Heap.store (MatchingEngine.heap e) order (Order.reject o)) e)
      | Ok true =>
        if 0 <? Order.remaining_qty o then (Raise (NameError "oppsing_boook"), e)
        else (Ok [], MatchingEngine.set_heap
                       (Heap.store (MatchingEngine.heap e) order
                          (Order.set_remaining_qty (Order.remaining_qty o) o)) e)
      end
    end
  end.
Proof.
  unfold MatchingEngine._match_order. unfold MatchingEngine.bind at 1.
  unfold MatchingEngine.deref at 1, MatchingEngine.gets at 1. cbn zeta.
  unfold MatchingEngine.bind at 1. unfold MatchingEngine.get_book at 1.
  destruct (Order.symbol (Heap.deref (MatchingEngine.heap e) order)) as [sym|]; [|reflexivity].
  destruct (MatchingEngine.books_get sym (MatchingEngine.order_books e)) as [b|]; [|reflexivity].
  unfold MatchingEngine.bind at 1. unfold MatchingEngine.gets at 1.
  unfold MatchingEngine.bind at 1.
  destruct (bool_decide (Order.type (Heap.deref (MatchingEngine.heap e) order) = Some FOK)).
  - unfold MatchingEngine.lift at 1.
    destruct (MatchingEngine._can_fill_completely _ _ _) as [[|]|x]; cbn [negb]; try reflexivity.
    rewrite while_walk_cond. cbn [fst].
    unfold MatchingEngine.bind at 1.
    destruct (0 <? _); reflexivity.
  - unfold MatchingEngine.ret at 1. cbn [negb].
    rewrite while_walk_cond. cbn [fst].
    unfold MatchingEngine.bind at 1.
    destruct (0 <? _); reflexivity.
Qed.

(** ** Components a submission leaves alone *)

Lemma snd_bind {A B} (m : MatchingEngine.M A) (k : A -> MatchingEngine.M B) e :
  snd (MatchingEngine.bind m k e)
  = match m e with
    | (Ok a, e1) => snd (k a e1)
    | (Raise _, e1) => e1
    end.
Proof. unfold MatchingEngine.bind. destruct (m e) as [[a|x] e1]; reflexivity. Qed.

Section CoreIndependent.
Context {F : Type} (f : MatchingEngine.t -> F) (Hf : core_independent f).

Lemma preserves_match_order order : preserves f (MatchingEngine._match_order order).
Proof.
  destruct Hf as [[Hv Hh] Hm].
  intros e. rewrite match_order_eq. cbn zeta.
  destruct (Order.symbol _); [|reflexivity].
  destruct (MatchingEngine.books_get _ _); [|reflexivity].
  destruct (if bool_decide _ then _ else _) as [[|]|x]; cbn [snd]; try reflexivity.
  - destruct (0 <? _); cbn [snd]; [reflexivity|apply Hh].
  - apply Hh.
Qed.

Lemma preserves_add_order s order : preserves f (MatchingEngine.add_order s order).
Proof.
  pose proof Hf as [[Hv Hh] Hm].
  unfold MatchingEngine.add_order.
  apply preserves_bind; [by apply preserves_get_book|]. intros b.
  apply preserves_bind; [apply preserves_gets|]. intros h.
  destruct (OrderBook.add_order h b order) as [[res h'] b'].
  apply preserves_bind; [apply preserves_modify; intros e; apply Hh|]. intros _.
  apply preserves_bind; [by apply preserves_put_book|]. intros _.
  apply preserves_lift.
Qed.

Lemma preserves_handle_remaining order trades :
  preserves f (MatchingEngine._handle_remaining_quantity order trades).
Proof.
  pose proof Hf as [[Hv Hh] Hm].
  assert (Hs : forall l o, preserves f (MatchingEngine.store l o))
    by (intros; apply preserves_store; split; assumption).
  unfold MatchingEngine._handle_remaining_quantity.
  apply preserves_bind; [by apply preserves_deref|]. intros o.
  apply preserves_bind; [by apply preserves_get_book|]. intros b.
  apply preserves_bind.
  - destruct (0 <? _); [|apply Hs].
    destruct (Order.type o) as [[| | |]|]; try apply preserves_ret.
    + destruct (bool_decide _); apply Hs.
    + apply preserves_bind; [apply preserves_add_order|]. intros _.
      apply preserves_bind; [by apply preserves_deref|]. intros o'. apply Hs.
    + destruct (negb _); apply Hs.
    + apply Hs.
  - intros _. apply preserves_bind; [by apply preserves_deref|]. intros o'.
    apply preserves_ret.
Qed.

Lemma preserves_update_metrics trades : preserves f (MatchingEngine.update_metrics trades).
Proof.
  destruct Hf as [[Hv Hh] Hm].
  intros e. unfold MatchingEngine.update_metrics.
  destruct (MatchingEngine.metrics e); cbn [snd]; [apply Hm|reflexivity].
Qed.

Lemma preserves_submit_tail s order : preserves f (submit_tail s order).
Proof.
  pose proof Hf as [[Hv Hh] Hm].
  unfold submit_tail.
  apply preserves_bind; [apply preserves_match_order|]. intros trades.
  apply preserves_bind; [apply preserves_handle_remaining|]. intros r.
  apply preserves_bind; [apply preserves_update_metrics|]. intros _.
  apply preserves_bind; [by apply preserves_broadcast_updates|]. intros _.
  apply preserves_ret.
Qed.

End CoreIndependent.

Section SubmitIndependent.
Context {F : Type} (f : MatchingEngine.t -> F) (Hf : submit_independent f).

Lemma preserves_create_order d : preserves f (MatchingEngine._create_order_from_data d).
Proof.
  destruct Hf as [[[Hv Hh] Hm] [Hw He]].
  intros e. destruct (MatchingEngine._create_order_from_data d e) as [res e2] eqn:Hc.
  apply create_order_spec in Hc as (o & -> & _). cbn [snd].
  rewrite Hh. apply He.
Qed.

Lemma submit_order_try_eq d :
  MatchingEngine.submit_order_try d =
  MatchingEngine.bind (MatchingEngine.check_required d) (fun _ =>
  MatchingEngine.bind (MatchingEngine.subscript (OrderData.symbol d)) (fun symbol =>
  MatchingEngine.bind (MatchingEngine.initialize_symbol symbol) (fun _ =>
  MatchingEngine.bind (MatchingEngine._create_order_from_data d) (fun order =>
  MatchingEngine.bind (MatchingEngine.log_order_submission order) (fun _ =>
  submit_tail symbol order))))).
Proof. reflexivity. Qed.

Lemma preserves_submit_order_try d : preserves f (MatchingEngine.submit_order_try d).
Proof.
  pose proof Hf as [[[Hv Hh] Hm] [Hw He]].
  rewrite submit_order_try_eq.
  apply preserves_bind.
  { unfold MatchingEngine.check_required.
    repeat (case_match; try apply preserves_raise). apply preserves_ret. }
  intros _. apply preserves_bind.
  { destruct (OrderData.symbol d); [apply preserves_ret|apply preserves_raise]. }
  intros symbol. apply preserves_bind.
  { apply preserves_modify. intros e. destruct (MatchingEngine.books_get _ _); [done|apply Hv]. }
  intros _. apply preserves_bind; [apply preserves_create_order|].
  intros order. apply preserves_bind.
  { intros e. unfold MatchingEngine.log_order_submission.
    destruct (WriteAheadLog.log_order_submission _ _) as [res w]. apply Hw. }
  intros _. apply preserves_submit_tail. apply Hf.
Qed.

Lemma preserves_submit_order d e : f (snd (MatchingEngine.submit_order d e)) = f e.
Proof.
  unfold MatchingEngine.submit_order.
  pose proof (preserves_submit_order_try d e) as H.
  destruct (MatchingEngine.submit_order_try d e) as [[r|x] e']; exact H.
Qed.

End SubmitIndependent.

(** ** Books and store across a submission *)

Lemma order_books_store_independent :
  (forall x e, MatchingEngine.order_books (MatchingEngine.set_heap x e) = MatchingEngine.order_books e)
  /\ (forall x e, MatchingEngine.order_books (MatchingEngine.set_metrics x e) = MatchingEngine.order_books e).
Proof. split; reflexivity. Qed.

Lemma update_metrics_books trades e :
  MatchingEngine.order_books (snd (MatchingEngine.update_metrics trades e))
  = MatchingEngine.order_books e.
Proof.
  unfold MatchingEngine.update_metrics. destruct (MatchingEngine.metrics e); reflexivity.
Qed.

Lemma handle_remaining_books order trades e :
  ~ (Order.type (Heap.deref (MatchingEngine.heap e) order) = Some LIMIT
     /\ 0 < Order.remaining_qty (Heap.deref (MatchingEngine.heap e) order)) ->
  MatchingEngine.order_books (snd (MatchingEngine._handle_remaining_quantity order trades e))
  = MatchingEngine.order_books e.
Proof.
  intros Hn. unfold MatchingEngine._handle_remaining_quantity.
  rewrite snd_bind. unfold MatchingEngine.deref at 1, MatchingEngine.gets at 1.
  set (o := Heap.deref (MatchingEngine.heap e) order) in *.
  rewrite snd_bind. unfold MatchingEngine.get_book at 1.
  destruct (Order.symbol o) as [sym|]; [|reflexivity].
  destruct (MatchingEngine.books_get sym (MatchingEngine.order_books e)) as [b|]; [|reflexivity].
  rewrite snd_bind.
  destruct (0 <? Order.remaining_qty o) eqn:Hr.
  - apply Z.ltb_lt in Hr.
    destruct (Order.type o) as [[| | |]|] eqn:Ht; try (exfalso; apply Hn; split; [reflexivity|exact Hr]).
    + destruct (bool_decide (trades = [])); reflexivity.
    + destruct (negb (bool_decide (trades = []))); reflexivity.
    + reflexivity.
    + reflexivity.
  - reflexivity.
Qed.

Lemma tail_same_books s order e :
  same_books (MatchingEngine.order_books e)
    (MatchingEngine.order_books (snd (submit_tail s order e))).
Proof.
  unfold submit_tail. rewrite snd_bind. rewrite match_order_eq. cbn zeta.
  set (h := MatchingEngine.heap e). set (o := Heap.deref h order).
  destruct (Order.symbol o) as [sym|]; [|apply same_books_refl].
  destruct (MatchingEngine.books_get sym (MatchingEngine.order_books e)) as [b|];
    [|apply same_books_refl].
  assert (Hgo : forall o' e1,
    e1 = MatchingEngine.set_heap (Heap.store h order o') e ->
    ~ (Order.type (Heap.deref (Heap.store h order o') order) = Some LIMIT
       /\ 0 < Order.remaining_qty (Heap.deref (Heap.store h order o') order)) ->
    same_books (MatchingEngine.order_books e)
      (MatchingEngine.order_books
         (snd (MatchingEngine.bind (MatchingEngine._handle_remaining_quantity order [])
                 (fun response =>
                    MatchingEngine.bind (MatchingEngine.update_metrics [])
                      (fun _ => MatchingEngine.bind
                                  (MatchingEngine._broadcast_updates (Some s) [])
                                  (fun _ => MatchingEngine.ret response))) e1)))).
  { intros o' e1 -> Hn.
    rewrite snd_bind.
    pose proof (handle_remaining_books order []
                  (MatchingEngine.set_heap (Heap.store h order o') e) Hn) as Hb.
    destruct (MatchingEngine._handle_remaining_quantity order [] _) as [[r|x] e2];
      cbn [snd] in Hb; [|rewrite Hb; apply same_books_refl].
    rewrite snd_bind.
    pose proof (update_metrics_books [] e2) as Hm.
    destruct (MatchingEngine.update_metrics [] e2) as [[[]|x] e3]; cbn [snd] in Hm;
      [|rewrite Hm, Hb; apply same_books_refl].
    rewrite snd_bind.
    pose proof (broadcast_same_books (Some s) [] e3) as Hbc.
    destruct (MatchingEngine._broadcast_updates (Some s) [] e3) as [[[]|x] e4]; cbn [snd] in *.
    - rewrite Hm, Hb in Hbc. exact Hbc.
    - rewrite Hm, Hb in Hbc. exact Hbc. }
  destruct (bool_decide (Order.type o = Some FOK)) eqn:Hfok.
  - apply bool_decide_eq_true in Hfok.
    destruct (MatchingEngine._can_fill_completely h o _) as [[|]|x]; [| |apply same_books_refl].
    + destruct (0 <? Order.remaining_qty o) eqn:Hr; [apply same_books_refl|].
      apply Z.ltb_ge in Hr.
      eapply Hgo; [reflexivity|]. intros [Ht Hq].
      destruct (decide (order < List.length h)%nat) as [Hlt|Hge].
      * rewrite deref_store in Ht by done. simpl in Ht. congruence.
      * rewrite store_dangling in Ht by lia. fold o in Ht. congruence.
    + eapply Hgo; [reflexivity|]. intros [Ht Hq].
      destruct (decide (order < List.length h)%nat) as [Hlt|Hge].
      * rewrite deref_store in Ht by done. simpl in Ht. congruence.
      * rewrite store_dangling in Ht by lia. fold o in Ht. congruence.
  - destruct (0 <? Order.remaining_qty o) eqn:Hr; [apply same_books_refl|].
    apply Z.ltb_ge in Hr.
    eapply Hgo; [reflexivity|]. intros [Ht Hq].
    destruct (decide (order < List.length h)%nat) as [Hlt|Hge].
    * rewrite deref_store in Hq by done. simpl in Hq. lia.
    * rewrite store_dangling in Hq by lia. fold o in Hq. lia.
Qed.

Lemma handle_remaining_fok order e o sym b :
  (order < List.length (MatchingEngine.heap e))%nat ->
  Heap.deref (MatchingEngine.heap e) order = o ->
  Order.symbol o = Some sym ->
  MatchingEngine.books_get sym (MatchingEngine.order_books e) = Some b ->
  Order.type o = Some FOK ->
  0 < Order.remaining_qty o ->
  MatchingEngine._handle_remaining_quantity order [] e
  = (Ok (MatchingEngine.OrderResponse (Order.to_dict (Order.reject o)) None),
     MatchingEngine.set_heap (Heap.store (MatchingEngine.heap e) order (Order.reject o)) e).
Proof.
  intros Hl Ho Hs Hb Ht Hr.
  unfold MatchingEngine._handle_remaining_quantity.
  unfold MatchingEngine.bind at 1. unfold MatchingEngine.deref at 1, MatchingEngine.gets at 1.
  rewrite Ho.
  unfold MatchingEngine.bind at 1. unfold MatchingEngine.get_book at 1. rewrite Hs, Hb.
  apply Z.ltb_lt in Hr. rewrite Hr, Ht.
  unfold MatchingEngine.bind at 1. unfold MatchingEngine.store at 1, MatchingEngine.modify at 1.
  unfold MatchingEngine.bind at 1. unfold MatchingEngine.deref at 1, MatchingEngine.gets at 1.
  cbn [MatchingEngine.heap MatchingEngine.set_heap].
  rewrite deref_store by done.
  reflexivity.
Qed.

(** The tail of a submission whose order was just created: either it
    raises without having changed anything, or the order is a FOK order that
    fails the dry run and is marked REJECTED. *)
Lemma submit_tail_spec sym order e o b res e' :
  (order < List.length (MatchingEngine.heap e))%nat ->
  Heap.deref (MatchingEngine.heap e) order = o ->
  Order.symbol o = Some sym ->
  MatchingEngine.books_get sym (MatchingEngine.order_books e) = Some b ->
  0 < Order.remaining_qty o ->
  submit_tail sym order e = (res, e') ->
  let fok_fail :=
    Order.type o = Some FOK
    /\ MatchingEngine._can_fill_completely (MatchingEngine.heap e) o
         (MatchingEngine.opposing (bool_decide (Order.side o = Some BUY)) b) = Ok false in
  (~ fok_fail /\ e' = e /\ exists x, res = Raise x)
  \/ (fok_fail
      /\ MatchingEngine.heap e' = Heap.store (MatchingEngine.heap e) order (Order.reject o)
      /\ (res = Ok (MatchingEngine.OrderResponse (Order.to_dict (Order.reject o)) None)
          \/ exists x, res = Raise x)).
Proof.
  intros Hl Ho Hs Hb Hr. unfold submit_tail.
  unfold MatchingEngine.bind at 1. rewrite match_order_eq. cbn zeta.
  rewrite Ho, Hs, Hb.
  pose proof Hr as Hr'. apply Z.ltb_lt in Hr'. rewrite Hr'.
  destruct (bool_decide (Order.type o = Some FOK)) eqn:Hfok.
  - apply bool_decide_eq_true in Hfok.
    destruct (MatchingEngine._can_fill_completely _ _ _) as [[|]|x] eqn:Hcf.
    + intros [= <- <-]. left. split; [intros [_ ?]; congruence|]. eauto.
    + cbv beta iota. set (e1 := MatchingEngine.set_heap _ e). unfold MatchingEngine.bind at 1.
      erewrite (handle_remaining_fok order e1 (Order.reject o) sym b); try done; cycle 1.
      { subst e1. cbn. by rewrite length_store. }
      { subst e1. cbn. by rewrite deref_store. }
      set (e2 := MatchingEngine.set_heap _ e1).
      assert (He2 : MatchingEngine.heap e2
                    = Heap.store (MatchingEngine.heap e) order (Order.reject o)).
      { subst e2 e1. cbn. by rewrite store_store. }
      intros Hrun. right. split; [done|].
      unfold MatchingEngine.bind at 1 in Hrun.
      pose proof (preserves_update_metrics MatchingEngine.heap) as Hm.
      unfold MatchingEngine.update_metrics in Hrun.
      destruct (MatchingEngine.metrics e2) as [m|].
      * unfold MatchingEngine.bind at 1 in Hrun.
        set (e3 := MatchingEngine.set_metrics _ e2) in Hrun.
        pose proof (preserves_broadcast_updates MatchingEngine.heap heap_view_independent
                      (Some sym) [] e3) as Hbc.
        destruct (MatchingEngine._broadcast_updates (Some sym) [] e3) as [[[]|x] e4];
          cbn [snd] in Hbc; injection Hrun as <- <-; (split; [by rewrite Hbc|]); eauto.
      * injection Hrun as <- <-. split; [done|]. eauto.
    + intros [= <- <-]. left. split; [intros [_ ?]; congruence|]. eauto.
  - apply bool_decide_eq_false in Hfok.
    intros [= <- <-]. left. split; [intros [? _]; congruence|]. eauto.
Qed.

(** ** The three ways a submission can go *)

Lemma with_symbol_get sym e :
  exists b, MatchingEngine.books_get sym (MatchingEngine.order_books (with_symbol sym e)) = Some b
    /\ b = default (OrderBook.init sym)
             (MatchingEngine.books_get sym (MatchingEngine.order_books e)).
Proof.
  unfold with_symbol, MatchingEngine.initialize_symbol, MatchingEngine.modify. cbn [snd].
  destruct (MatchingEngine.books_get sym (MatchingEngine.order_books e)) as [b|] eqn:Hb.
  - exists b. by rewrite Hb.
  - eexists. split; [|reflexivity]. cbn.
    induction (MatchingEngine.order_books e) as [|[k v] r IH]; simpl in *.
    + by rewrite bool_decide_true.
    + case_bool_decide; [done|]. by apply IH.
Qed.

Lemma with_symbol_heap sym e :
  MatchingEngine.heap (with_symbol sym e) = MatchingEngine.heap e.
Proof.
  unfold with_symbol, MatchingEngine.initialize_symbol, MatchingEngine.modify. cbn [snd].
  by destruct (MatchingEngine.books_get _ _).
Qed.

Lemma with_symbol_wal sym e :
  MatchingEngine.wal (with_symbol sym e) = MatchingEngine.wal e.
Proof.
  unfold with_symbol, MatchingEngine.initialize_symbol, MatchingEngine.modify. cbn [snd].
  by destruct (MatchingEngine.books_get _ _).
Qed.

Lemma submit_order_cases d e r e' :
  MatchingEngine.submit_order d e = (r, e') ->
  (e' = e
   /\ (OrderData.symbol d = None \/ OrderData.order_type d = None
       \/ OrderData.side d = None \/ OrderData.quantity d = None)
   /\ exists x, r = error_response d x)
  \/ (exists sym o n x,
        OrderData.symbol d = Some sym
        /\ fst (MatchingEngine._create_order_from_data d (with_symbol sym e)) = Raise x
        /\ e' = MatchingEngine.set_heap (MatchingEngine.heap e ++ [o])
                  (MatchingEngine.set_entropy n (with_symbol sym e))
        /\ r = error_response d x)
  \/ (exists sym o n b,
        OrderData.symbol d = Some sym
        /\ created d o
        /\ MatchingEngine.books_get sym
             (MatchingEngine.order_books (with_symbol sym e)) = Some b
        /\ let e3 := MatchingEngine.set_wal (MatchingEngine.wal e ++ [submit_entry o])
                       (MatchingEngine.set_heap (MatchingEngine.heap e ++ [o])
                          (MatchingEngine.set_entropy n (with_symbol sym e))) in
           (~ fok_fails (MatchingEngine.heap e ++ [o]) o b
            /\ e' = e3 /\ exists x, r = error_response d x)
           \/ (fok_fails (MatchingEngine.heap e ++ [o]) o b
               /\ MatchingEngine.heap e' = MatchingEngine.heap e ++ [Order.reject o]
               /\ same_books (MatchingEngine.order_books e3) (MatchingEngine.order_books e')
               /\ (forall F (f : MatchingEngine.t -> F), core_independent f -> f e' = f e3)
               /\ (r = MatchingEngine.OrderResponse (Order.to_dict (Order.reject o)) None
                   \/ exists x, r = error_response d x))).
Proof.
  unfold MatchingEngine.submit_order. rewrite submit_order_try_eq.
  unfold MatchingEngine.bind at 1. unfold MatchingEngine.check_required.
  destruct (OrderData.symbol d) as [sym|] eqn:Hsym;
    [|intros [= <- <-]; left; split; [done|]; split; [tauto|]; eexists; reflexivity].
  destruct (OrderData.order_type d) as [ty|] eqn:Hty;
    [|intros [= <- <-]; left; split; [done|]; split; [tauto|]; eexists; reflexivity].
  destruct (OrderData.side d) as [sd|] eqn:Hsd;
    [|intros [= <- <-]; left; split; [done|]; split; [tauto|]; eexists; reflexivity].
  destruct (OrderData.quantity d) as [q|] eqn:Hq;
    [|intros [= <- <-]; left; split; [done|]; split; [tauto|]; eexists; reflexivity].
  unfold MatchingEngine.ret at 1.
  unfold MatchingEngine.bind at 1. unfold MatchingEngine.subscript at 1, MatchingEngine.ret at 1.
  unfold MatchingEngine.bind at 1.
  change (MatchingEngine.initialize_symbol sym e) with (Ok tt, with_symbol sym e).
  set (e1 := with_symbol sym e).
  unfold MatchingEngine.bind at 1.
  destruct (MatchingEngine._create_order_from_data d e1) as [res e2] eqn:Hc.
  pose proof (f_equal fst Hc) as Hfst. cbn [fst] in Hfst.
  apply create_order_spec in Hc as (o & He2 & Hok).
  set (n := MatchingEngine.entropy e2) in He2.
  assert (Hh1 : MatchingEngine.heap e1 = MatchingEngine.heap e) by apply with_symbol_heap.
  rewrite Hh1 in He2.
  destruct res as [l|x];
    [|intros [= <- <-]; right; left; exists sym, o, n, x; rewrite He2; done].
  destruct (Hok l eq_refl) as [Hl Hcr]. rewrite Hh1 in Hl. clear Hok.
  destruct (with_symbol_get sym e) as (b & Hb & _). fold e1 in Hb.
  pose proof Hcr as (Hcs & (s & raw & Hside & _) & (oty & raw' & Hotype & _) & _ & _ & Hrem & Hpos & _).
  unfold MatchingEngine.bind at 1. unfold MatchingEngine.log_order_submission.
  assert (Hd : Heap.deref (MatchingEngine.heap e2) l = o).
  { rewrite He2, Hl. cbn. apply deref_alloc. }
  rewrite Hd. unfold WriteAheadLog.log_order_submission. rewrite Hside, Hotype.
  set (e3 := MatchingEngine.set_wal _ e2).
  destruct (submit_tail sym l e3) as [res' e4] eqn:Ht.
  assert (He3 : e3 = MatchingEngine.set_wal (MatchingEngine.wal e ++ [submit_entry o])
                       (MatchingEngine.set_heap (MatchingEngine.heap e ++ [o])
                          (MatchingEngine.set_entropy n e1))).
  { subst e3. rewrite He2. rewrite <- (with_symbol_wal sym e). fold e1.
    unfold submit_entry, WriteAheadLog._write_entry. rewrite Hside, Hotype.
    reflexivity. }
  pose proof (tail_same_books sym l e3) as Hbooks.
  pose proof (fun F (f : MatchingEngine.t -> F) (Hf : core_independent f) =>
                preserves_submit_tail f Hf sym l e3) as Hpres.
  rewrite Ht in Hbooks, Hpres. cbn [snd] in Hbooks, Hpres.
  apply (submit_tail_spec sym l e3 o b) in Ht; cycle 1.
  { rewrite He3. cbn. rewrite length_app. simpl. lia. }
  { rewrite He3. cbn. rewrite Hl. apply deref_alloc. }
  { by rewrite Hcs. }
  { rewrite He3. exact Hb. }
  { lia. }
  cbn zeta in Ht.
  assert (Hh3 : MatchingEngine.heap e3 = MatchingEngine.heap e ++ [o]) by (by rewrite He3).
  assert (Hb3 : MatchingEngine.order_books e3 = MatchingEngine.order_books e1)
    by (by rewrite He3).
  rewrite Hh3 in Ht.
  intros Hr. right. right. exists sym, o, n, b.
  split; [done|]. split; [done|]. split; [done|]. cbn zeta. fold e1. rewrite <- He3.
  destruct Ht as [(Hnf & -> & x & ->)|(Hf & Hheap & Hres)].
  - injection Hr as <- <-. left. split; [exact Hnf|]. split; [done|]. by exists x.
  - right.
    destruct Hres as [->|[x ->]]; injection Hr as <- <-;
      (split; [exact Hf|]);
      (split; [rewrite Hheap, Hl; apply store_alloc|]);
      (split; [exact Hbooks|]); (split; [exact Hpres|]).
    + by left.
    + right. by exists x.
Qed.

(** ** Recovery *)









(** ** Lookup and cancel by id *)

Lemma with_symbol_books sym e :
  MatchingEngine.order_books (with_symbol sym e) = MatchingEngine.order_books e
  \/ MatchingEngine.order_books (with_symbol sym e)
     = MatchingEngine.order_books e ++ [(sym, OrderBook.init sym)].
Proof.
  unfold with_symbol, MatchingEngine.initialize_symbol, MatchingEngine.modify. cbn [snd].
  destruct (MatchingEngine.books_get _ _); [by left|by right].
Qed.

Lemma same_books_index id bs bs' :
  same_books bs bs' ->
  Forall (fun sb : string * OrderBook.t => OrderBook.orders sb.2 !! id = None) bs ->
  Forall (fun sb : string * OrderBook.t => OrderBook.orders sb.2 !! id = None) bs'.
Proof.
  induction 1 as [|x y l l' [_ (_&_&_&Ho)] _ IH]; intros Hf; [constructor|].
  inversion Hf; subst. constructor; [by rewrite <- Ho|by apply IH].
Qed.

Lemma with_symbol_index id sym e :
  not_indexed id e -> not_indexed id (with_symbol sym e).
Proof.
  unfold not_indexed. intros H.
  destruct (with_symbol_books sym e) as [-> | ->]; [done|].
  apply Forall_app. split; [done|]. by repeat constructor.
Qed.

Lemma submit_order_index id d e :
  not_indexed id e -> not_indexed id (snd (MatchingEngine.submit_order d e)).
Proof.
  intros H. destruct (MatchingEngine.submit_order d e) as [r e'] eqn:Hs. cbn [snd].
  apply submit_order_cases in Hs
    as [(-> & _)|[(sym & o & n & x & _ & _ & -> & _)|(sym & o & n & b & _ & _ & _ & Hc)]].
  - done.
  - by apply (with_symbol_index id sym).
  - cbn zeta in Hc. destruct Hc as [(_ & -> & _)|(_ & _ & Hb & _)].
    + by apply (with_symbol_index id sym).
    + eapply same_books_index; [exact Hb|]. by apply (with_symbol_index id sym).
Qed.

Lemma get_order_loop_none id h bs :
  Forall (fun sb : string * OrderBook.t => OrderBook.orders sb.2 !! id = None) bs ->
  MatchingEngine.get_order_loop id h bs = None.
Proof.
  induction 1 as [|[s b] r Hb _ IH]; simpl; [done|].
  unfold OrderBook.get_order. simpl in Hb. by rewrite Hb.
Qed.

Lemma cancel_loop_not_found id bs :
  Forall (fun sb : string * OrderBook.t => OrderBook.orders sb.2 !! id = None) bs ->
  forall i e, MatchingEngine.cancel_loop id i bs e = (Raise (ValueError (Order_not_found id)), e).
Proof.
  induction 1 as [|[s b] r Hb _ IH]; intros i e; simpl; [done|].
  unfold OrderBook.get_order. simpl in Hb. rewrite Hb. apply IH.
Qed.

Lemma remove_order_unindexed h b id :
  OrderBook.get_order (snd (OrderBook.remove_order h b id)) id = None.
Proof.
  unfold OrderBook.remove_order, OrderBook.get_order.
  destruct (OrderBook.orders b !! id) as [l|] eqn:Hl; [|done].
  cbn [snd OrderBook.set_dirty OrderBook.set_orders OrderBook.orders].
  apply lookup_delete_eq.
Qed.

(** C10.  Lookup and cancel read nothing but the id indices of the books: for
    an id that no index holds, [get_order] returns [None] and [cancel_order]
    raises the not-found error and changes nothing, whatever became of the
    order.  A submission never puts an id on an index, so an order that was
    rejected or handled on arrival stays unknown to both. *)
Theorem unindexed_order_is_not_found (order_id : string) (e : MatchingEngine.t) :
  not_indexed order_id e ->
  MatchingEngine.get_order order_id e = None
  /\ MatchingEngine.cancel_order order_id e
     = (Raise (ValueError (Order_not_found order_id)), e)
  /\ (forall d, not_indexed order_id (snd (MatchingEngine.submit_order d e))).
Proof.
  intros H. split; [|split].
  - by apply get_order_loop_none.
  - unfold MatchingEngine.cancel_order, MatchingEngine.bind, MatchingEngine.gets.
    by apply cancel_loop_not_found.
  - intros d. by apply submit_order_index.
Qed.

Lemma unindexed_order_is_not_found_witness :
  let e := snd (MatchingEngine.cancel_order "O1"
                  (engine_resting [limit_object "O1" BUY 1 50000] true)) in
  not_indexed "O1" e
  /\ MatchingEngine.get_order "O1" e = None
  /\ MatchingEngine.cancel_order "O1" e = (Raise (ValueError (Order_not_found "O1")), e)
  /\ Order.status (Heap.deref (MatchingEngine.heap e) 0%nat) = CANCELLED.
Proof.
  assert (H : not_indexed "O1"
                (snd (MatchingEngine.cancel_order "O1"
                        (engine_resting [limit_object "O1" BUY 1 50000] true))))
    by (apply Forall_cons; split; [vm_compute; reflexivity|constructor]).
  destruct (unindexed_order_is_not_found "O1" _ H) as (Hget & Hcancel & _).
  split; [exact H|]. split; [exact Hget|]. split; [exact Hcancel|reflexivity].
Defined.

(** ** Conditional orders *)

Lemma check_trigger_untriggered o p :
  AdvancedOrder.activated o = false -> triggers p o = false ->
  snd (AdvancedOrder.check_trigger o p) = o.
Proof.
  unfold triggers, AdvancedOrder.check_trigger. intros Ha.
  rewrite Ha. cbn [fst snd]. intros ->. destruct o; simpl in *. by subst.
Qed.

Lemma check_trigger_limit_order o p :
  AdvancedOrder.to_limit_order (snd (AdvancedOrder.check_trigger o p))
  = AdvancedOrder.to_limit_order o
  /\ AdvancedOrder.order_id (snd (AdvancedOrder.check_trigger o p))
     = AdvancedOrder.order_id o.
Proof.
  unfold AdvancedOrder.check_trigger. destruct (AdvancedOrder.activated o); split; reflexivity.
Qed.

Lemma promote_all_advanced os :
  forall e, MatchingEngine.advanced_orders (promote_all os e)
            = MatchingEngine.advanced_orders e.
Proof.
  induction os as [|o r IH]; intros e; simpl; [done|].
  unfold promote_all in *. simpl. rewrite IH.
  apply (preserves_submit_order MatchingEngine.advanced_orders). repeat split.
Qed.

Lemma check_loop_spec p registry :
  Forall (fun o => AdvancedOrder.activated o = false) registry ->
  forall triggered remaining e,
    MatchingEngine.check_loop p registry triggered remaining e
    = (triggered ++ (AdvancedOrder.order_id <$> List.filter (triggers p) registry),
       remaining ++ List.filter (fun o => negb (triggers p o)) registry,
       promote_all (List.filter (triggers p) registry) e).
Proof.
  induction 1 as [|o r Ha _ IH]; intros triggered remaining e.
  - simpl. by rewrite !app_nil_r.
  - pose proof (check_trigger_limit_order o p) as [Hl Hid].
    pose proof (check_trigger_untriggered o p Ha) as Hu.
    cbn [MatchingEngine.check_loop List.filter].
    unfold triggers in Hu.
    destruct (AdvancedOrder.check_trigger o p) as [tr o'] eqn:Hc. cbn [fst snd] in *.
    assert (Ht : triggers p o = tr) by (unfold triggers; by rewrite Hc).
    rewrite !Ht.
    destruct tr; cbn [negb].
    + rewrite Hl, Hid.
      destruct (MatchingEngine.submit_order _ e) as [r0 e1] eqn:Hs.
      rewrite IH. rewrite <- app_assoc.
      unfold promote_all. cbn [foldl fmap list_fmap app]. by rewrite Hs.
    + rewrite IH. rewrite (Hu eq_refl). by rewrite <- app_assoc.
Qed.


Lemma filter_Forall {A} (P : A -> Prop) (f : A -> bool) (l : list A) :
  Forall P l -> Forall P (List.filter f l).
Proof.
  induction 1 as [|x r Hx _ IH]; simpl; [constructor|].
  destruct (f x); [by constructor|done].
Qed.

Lemma submit_advanced_spec d e :
  MatchingEngine.advanced_orders (snd (MatchingEngine.submit_advanced_order d e))
  = MatchingEngine.advanced_orders e
  \/ exists sym o,
       AdvancedOrder.activated o = false
       /\ MatchingEngine.advanced_orders (snd (MatchingEngine.submit_advanced_order d e))
          = <[sym := default [] (MatchingEngine.advanced_orders e !! sym) ++ [o]]>
              (MatchingEngine.advanced_orders e).
Proof.
  unfold MatchingEngine.submit_advanced_order, MatchingEngine.submit_advanced_order_try,
    MatchingEngine.bind, MatchingEngine.gets, MatchingEngine.subscript,
    MatchingEngine.modify, MatchingEngine.ret, MatchingEngine.raise.
  destruct d as [oid sym side q ty tp lp c]; simpl.
  repeat mstep; first [by left | right; eexists _, _; split; [|reflexivity]; reflexivity].
Qed.

(** Registered conditional orders are never activated: registration clears
    the flag, a trigger scan removes the orders it activates, and a
    submission does not touch the registry. *)
Lemma registry_unactivated_invariant e :
  registry_unactivated e ->
  (forall d, registry_unactivated (snd (MatchingEngine.submit_advanced_order d e)))
  /\ (forall s p, registry_unactivated (snd (MatchingEngine.check_advanced_orders s p e)))
  /\ (forall d, registry_unactivated (snd (MatchingEngine.submit_order d e))).
Proof.
  intros Hinv. split; [|split].
  - intros d s registry.
    destruct (submit_advanced_spec d e) as [->|(sym & o & Ha & ->)]; [apply Hinv|].
    destruct (decide (sym = s)) as [->|Hne];
      [rewrite lookup_insert_eq|rewrite lookup_insert_ne by done; apply Hinv].
    intros [= <-]. apply Forall_app. split; [|by repeat constructor].
    destruct (_ !! s) eqn:Hl; simpl; [by eapply Hinv|constructor].
  - intros s p s' registry.
    unfold MatchingEngine.check_advanced_orders.
    destruct (MatchingEngine.advanced_orders e !! s) as [reg|] eqn:Hreg; [|apply Hinv].
    rewrite check_loop_spec by (by eapply Hinv). cbn.
    rewrite promote_all_advanced.
    destruct (decide (s = s')) as [->|Hne].
    + rewrite lookup_insert_eq. intros [= <-]. apply filter_Forall. by eapply Hinv.
    + rewrite lookup_insert_ne by done. apply Hinv.
  - intros d s registry.
    rewrite (preserves_submit_order MatchingEngine.advanced_orders) by (repeat split).
    apply Hinv.
Qed.


(** ** Fill-or-kill *)















(** ** Conservation of quantity *)











Lemma same_content_refs b b' : same_content b b' -> book_refs b = book_refs b'.
Proof. intros (_&Hb&Ha&Ho). unfold book_refs. by rewrite Hb, Ha, Ho. Qed.

Lemma same_books_refs bs bs' :
  same_books bs bs' ->
  mjoin ((fun sb : string * OrderBook.t => book_refs sb.2) <$> bs')
  = mjoin ((fun sb : string * OrderBook.t => book_refs sb.2) <$> bs).
Proof.
  induction 1 as [|x y l l' [_ Hc] _ IH]; [done|].
  csimpl. rewrite IH. by rewrite (same_content_refs _ _ Hc).
Qed.

Lemma same_books_resting e e' :
  same_books (MatchingEngine.order_books e) (MatchingEngine.order_books e') ->
  resting e' = resting e.
Proof. apply same_books_refs. Qed.




















(** ** Order book operations *)




Lemma set_keys k v d x :
  x ∈ (fst <$> SortedDict.set k v d) -> x = k \/ x ∈ (fst <$> d).
Proof.
  induction d as [|[k' v'] r IH]; simpl.
  - rewrite list_elem_of_singleton. tauto.
  - destruct (k <? k'); [|destruct (k =? k') eqn:Heq]; simpl; rewrite ?elem_of_cons.
    + tauto.
    + tauto.
    + intros [?|H]; [tauto|]. apply IH in H. tauto.
Qed.


Lemma sorted_set k v d : sorted_keys d -> sorted_keys (SortedDict.set k v d).
Proof.
  unfold sorted_keys. induction d as [|[k' v'] r IH]; simpl; intros Hs.
  - repeat constructor.
  - apply StronglySorted_inv in Hs as [Hr Hall]. simpl in *.
    destruct (k <? k') eqn:Hlt; [|destruct (k =? k') eqn:Heq]; simpl.
    + apply Z.ltb_lt in Hlt. constructor; [by constructor|].
      constructor; [done|]. eapply Forall_impl; [exact Hall|]. simpl. lia.
    + apply Z.eqb_eq in Heq. subst k'. by constructor.
    + apply Z.ltb_ge in Hlt. apply Z.eqb_neq in Heq.
      constructor; [by apply IH|].
      apply Forall_forall. intros x Hx. apply set_keys in Hx as [->|Hx]; [lia|].
      rewrite Forall_forall in Hall. by apply Hall.
Qed.





Lemma set_nonempty k v d :
  v <> [] -> levels_nonempty d -> levels_nonempty (SortedDict.set k v d).
Proof.
  unfold levels_nonempty. intros Hv. induction d as [|[k' v'] r IH]; simpl; intros Hn.
  - by repeat constructor.
  - apply Forall_cons in Hn as [H1 H2].
    destruct (k <? k'); [|destruct (k =? k')].
    + constructor; [done|]. by constructor.
    + by constructor.
    + constructor; [done|by apply IH].
Qed.

(** The result of a successful [add_order], component by component. *)
Lemma add_order_ok h b l h' b' :
  OrderBook.add_order h b l = (Ok tt, h', b') ->
  let o := Heap.deref h l in
  exists price,
    Order.price o = Some price
    /\ OrderBook.orders b !! Order.order_id o = None
    /\ h' = Heap.store h l (Order.set_status OPEN o)
    /\ b' = OrderBook.set_dirty true
              (OrderBook.set_side (Order.side o)
                 (SortedDict.set price
                    (default [] (SortedDict.get price
                                   (OrderBook.get_side (Order.side o) b)) ++ [l])
                    (OrderBook.get_side (Order.side o) b))
                 (OrderBook.set_orders (<[Order.order_id o := l]> (OrderBook.orders b)) b)).
Proof.
  unfold OrderBook.add_order. cbn zeta.
  destruct (OrderBook.orders b !! _) eqn:Hidx; [done|].
  destruct (Order.price (Heap.deref h l)) as [price|]; [|done].
  intros [= <- <-]. by exists price.
Qed.


(** X2.  An id can be on the book only once: after a successful [add_order],
    adding an object with the same [order_id] raises and changes nothing. *)
Theorem add_order_refuses_a_known_id h b l h' b' :
  OrderBook.add_order h b l = (Ok tt, h', b') ->
  forall l',
    Order.order_id (Heap.deref h' l') = Order.order_id (Heap.deref h l) ->
    OrderBook.add_order h' b' l'
    = (Raise (ValueError (Order_already_exists (Order.order_id (Heap.deref h l)))), h', b').
Proof.
  intros Hadd l' Hid. apply add_order_ok in Hadd as (price & Hp & Hfresh & -> & ->).
  unfold OrderBook.add_order. cbn zeta. rewrite Hid.
  unfold OrderBook.set_side.
  destruct (bool_decide (Order.side (Heap.deref h l) = Some BUY)); cbn;
    by rewrite lookup_insert_eq.
Qed.

Lemma set_side_wf s d b :
  sorted_keys d -> levels_nonempty d -> book_wf b -> book_wf (OrderBook.set_side s d b).
Proof.
  intros Hs Hn (H1 & H2 & H3 & H4). unfold OrderBook.set_side.
  destruct (bool_decide (s = Some BUY)); repeat split; done.
Qed.

Lemma get_side_wf s b :
  book_wf b ->
  sorted_keys (OrderBook.get_side s b) /\ levels_nonempty (OrderBook.get_side s b).
Proof.
  intros (H1 & H2 & H3 & H4). unfold OrderBook.get_side.
  by destruct (bool_decide (s = Some BUY)).
Qed.

Lemma add_order_wf h b l : book_wf b -> book_wf (OrderBook.add_order h b l).2.
Proof.
  intros Hwf. unfold OrderBook.add_order. cbn zeta.
  destruct (OrderBook.orders b !! _); [done|].
  destruct (Order.price (Heap.deref h l)) as [price|]; [|done].
  cbn [snd].
  set (b1 := OrderBook.set_orders _ b).
  assert (Hwf1 : book_wf b1) by done.
  destruct (get_side_wf (Order.side (Heap.deref h l)) b1 Hwf1) as [Hs Hn].
  apply (set_side_wf _ _ b1); [by apply sorted_set| |done].
  apply set_nonempty; [|done]. by destruct (default [] _).
Qed.







(** The best item of a non-empty side: the first one for a buyer (index 0),
    the last one for a seller (index -1); [popitem] leaves the others. *)
Lemma best_split is_buy (d : list (Z * list loc)) :
  d <> [] ->
  exists kv d',
    SortedDict.peekitem d (MatchingEngine.best_index is_buy) = Ok kv
    /\ SortedDict.popitem d (MatchingEngine.best_index is_buy) = (Ok kv, d')
    /\ d = (if is_buy then kv :: d' else d' ++ [kv]).
Proof.
  intros Hne. destruct is_buy.
  - destruct d as [|kv d']; [done|]. exists kv, d'.
    unfold SortedDict.peekitem, SortedDict.popitem, SortedDict.resolve. simpl.
    replace (0 <? Z.pos (Pos.of_succ_nat (List.length d'))) with true
      by (symmetry; apply Z.ltb_lt; lia).
    done.
  - assert (exists d' kv, d = d' ++ [kv]) as (d' & kv & ->).
    { revert Hne. induction d as [|x r IH] using rev_ind; intros Hne; [done|]. eauto. }
    exists kv, d'.
    unfold SortedDict.peekitem, SortedDict.popitem, SortedDict.resolve.
    rewrite length_app. simpl.
    replace (Z.of_nat (List.length d' + 1) + -1) with (Z.of_nat (List.length d')) by lia.
    replace (0 <=? Z.of_nat (List.length d')) with true by (symmetry; apply Z.leb_le; lia).
    replace (Z.of_nat (List.length d') <? Z.of_nat (List.length d' + 1)) with true
      by (symmetry; apply Z.ltb_lt; lia).
    simpl. rewrite Nat2Z.id. rewrite list_lookup_middle by done.
    by rewrite delete_middle, app_nil_r.
Qed.

Lemma sorted_keys_app d1 kv :
  sorted_keys (d1 ++ [kv]) -> Forall (fun x : Z * list loc => x.1 <= kv.1) (d1 ++ [kv]).
Proof.
  unfold sorted_keys. induction d1 as [|x r IH]; simpl; intros Hs.
  - constructor; [lia|constructor].
  - apply StronglySorted_inv in Hs as [Hr Hall].
    constructor; [|by apply IH].
    rewrite Forall_forall in Hall.
    assert (x.1 < kv.1); [|lia]. apply Hall.
    rewrite fmap_app. apply elem_of_app. right. by left.
Qed.

Lemma sorted_keys_get d k q :
  sorted_keys d -> (k, q) ∈ d -> SortedDict.get k d = Some q.
Proof.
  unfold sorted_keys. induction d as [|[k' v'] r IH]; simpl; intros Hs Hin.
  - by apply elem_of_nil in Hin.
  - apply StronglySorted_inv in Hs as [Hr Hall]. simpl in Hall.
    apply elem_of_cons in Hin as [[= -> ->]|Hin]; [by rewrite Z.eqb_refl|].
    assert (k' < k).
    { rewrite Forall_forall in Hall. apply Hall. apply list_elem_of_fmap. by exists (k, q). }
    replace (k =? k') with false by (symmetry; apply Z.eqb_neq; lia).
    by apply IH.
Qed.

(** X5.  [get_best_bid] never raises; it answers [None] exactly on an empty
    bid side, and otherwise the level with the greatest bid price. *)
Theorem get_best_bid_is_the_highest_bid (b : OrderBook.t) :
  sorted_keys (OrderBook.bids b) ->
  match OrderBook.get_best_bid b with
  | Ok None => OrderBook.bids b = []
  | Ok (Some (price, queue)) =>
    OrderBook.get_orders_at_price b BUY price = Some queue
    /\ Forall (fun level : Z * list loc => level.1 <= price) (OrderBook.bids b)
  | Raise _ => False
  end.
Proof.
  intros Hs. unfold OrderBook.get_best_bid, OrderBook.get_orders_at_price.
  destruct (OrderBook.bids b) as [|kv0 r] eqn:Hb; [done|].
  destruct (best_split false (kv0 :: r)) as ([p q] & d' & Hpeek & _ & Hd); [done|].
  change (MatchingEngine.best_index false) with (-1) in Hpeek.
  rewrite Hpeek. rewrite Hd in Hs |- *. cbn.
  split.
  - apply sorted_keys_get; [done|]. apply elem_of_app. right. by left.
  - by apply (sorted_keys_app d' (p, q)).
Qed.

Lemma StronglySorted_reverse (l : list Z) :
  StronglySorted Z.lt l -> StronglySorted Z.gt (reverse l).
Proof.
  induction l as [|x r IH]; intros Hs; [constructor|].
  apply StronglySorted_cons in Hs as [Hall Hr].
  rewrite reverse_cons. apply StronglySorted_app. split; [|split].
  - intros y z Hy Hz. apply list_elem_of_singleton in Hz as ->.
    rewrite elem_of_reverse in Hy. rewrite Forall_forall in Hall.
    specialize (Hall y Hy). lia.
  - by apply IH.
  - repeat constructor.
Qed.

Lemma StronglySorted_take {A} (R : relation A) n (l : list A) :
  StronglySorted R l -> StronglySorted R (take n l).
Proof.
  intros Hs. rewrite <- (take_drop n l) in Hs. by apply StronglySorted_app_1_l in Hs.
Qed.

Lemma elem_of_take_1 {A} n (l : list A) x : x ∈ take n l -> x ∈ l.
Proof. intros H. rewrite <- (take_drop n l). apply elem_of_app. by left. Qed.

(** X6.  [get_depth(levels)] returns [min(levels, number of levels)] entries
    per side, bids in descending and asks in ascending price order, each with
    the summed remaining quantity of its level; the first bid entry is the
    level of [get_best_bid]. *)
Theorem get_depth_lists_the_best_levels_first (h : Heap.t) (b : OrderBook.t) (levels : Z) :
  sorted_keys (OrderBook.bids b) -> sorted_keys (OrderBook.asks b) ->
  let depth := OrderBook.get_depth h b levels in
  List.length depth.1 = Nat.min (Z.to_nat levels) (List.length (OrderBook.bids b))
  /\ List.length depth.2 = Nat.min (Z.to_nat levels) (List.length (OrderBook.asks b))
  /\ StronglySorted Z.gt (fst <$> depth.1)
  /\ StronglySorted Z.lt (fst <$> depth.2)
  /\ (forall price qty, (price, qty) ∈ depth.1 ->
        exists queue, OrderBook.get_orders_at_price b BUY price = Some queue
                      /\ qty = OrderBook.level_qty h queue)
  /\ (forall price qty, (price, qty) ∈ depth.2 ->
        exists queue, OrderBook.get_orders_at_price b SELL price = Some queue
                      /\ qty = OrderBook.level_qty h queue)
  /\ (0 < levels ->
      head depth.1
      = match OrderBook.get_best_bid b with
        | Ok (Some (price, queue)) => Some (price, OrderBook.level_qty h queue)
        | _ => None
        end).
Proof.
  intros Hb Ha. unfold OrderBook.get_depth. cbn [fst snd].
  set (agg := fun kv : Z * list loc => (kv.1, OrderBook.level_qty h kv.2)).
  assert (Hfst : forall l : list (Z * list loc), fst <$> (agg <$> l) = fst <$> l).
  { intros l. rewrite <- list_fmap_compose. done. }
  split; [by rewrite length_fmap, length_take, length_reverse|].
  split; [by rewrite length_fmap, length_take|].
  split.
  { rewrite Hfst, fmap_take, fmap_reverse.
    by apply StronglySorted_take, StronglySorted_reverse. }
  split.
  { rewrite Hfst, fmap_take. by apply StronglySorted_take. }
  split.
  { intros price qty Hin. apply list_elem_of_fmap in Hin as ([p q] & [= -> ->] & Hin).
    exists q. split; [|done]. unfold OrderBook.get_orders_at_price. cbn.
    apply sorted_keys_get; [done|].
    apply elem_of_take_1 in Hin. by rewrite elem_of_reverse in Hin. }
  split.
  { intros price qty Hin. apply list_elem_of_fmap in Hin as ([p q] & [= -> ->] & Hin).
    exists q. split; [|done]. unfold OrderBook.get_orders_at_price. cbn.
    apply sorted_keys_get; [done|]. by apply elem_of_take_1 in Hin. }
  intros Hpos. unfold OrderBook.get_best_bid.
  destruct (OrderBook.bids b) as [|kv0 r] eqn:Hbids.
  { cbn. by destruct (Z.to_nat levels). }
  destruct (best_split false (kv0 :: r)) as ([p q] & d' & Hpeek & _ & Hd); [done|].
  change (MatchingEngine.best_index false) with (-1) in Hpeek.
  rewrite Hpeek, Hd, reverse_app. cbn.
  destruct (Z.to_nat levels) as [|n] eqn:Hn; [lia|]. done.
Qed.

(** X7.  After [get_bbo] has answered, the book is clean and every later
    [get_bbo] returns the same dictionary from the cache, whatever the
    stored orders have become; [get_bbo] changes neither price map nor the
    id index. *)
Theorem get_bbo_answers_from_its_cache (h : Heap.t) (b : OrderBook.t)
    (c : OrderBook.bbo) (b' : OrderBook.t) :
  OrderBook.get_bbo h b = (Ok c, b') ->
  OrderBook._bbo_dirty b' = false
  /\ OrderBook._cached_bbo b' = c
  /\ OrderBook.bids b' = OrderBook.bids b
  /\ OrderBook.asks b' = OrderBook.asks b
  /\ OrderBook.orders b' = OrderBook.orders b
  /\ (forall h' : Heap.t, OrderBook.get_bbo h' b' = (Ok c, b')).
Proof.
  unfold OrderBook.get_bbo.
  destruct (OrderBook._bbo_dirty b) eqn:Hdirty.
  - unfold OrderBook._recalculate_bbo.
    destruct (OrderBook.get_best_bid b) as [bid|x]; [|done].
    destruct (OrderBook.get_best_ask b) as [ask|x]; [|done].
    destruct bid as [[bp bq]|], ask as [[ap aq]|]; cbn;
      try (intros [= <- <-]; done).
    destruct (bp =? 0); [done|]. intros [= <- <-]. done.
  - intros [= <- <-]. repeat split; try done. intros h'. by rewrite Hdirty.
Qed.






(** ** Orders and submissions *)


Lemma create_order_accepts d e :
  acceptable d -> exists l, fst (MatchingEngine._create_order_from_data d e) = Ok l.
Proof.
  intros ((sd & Hsd & Hlsd) & (ty & Hty & Hlty & Hmk) & (q & Hq & Hpos) & Hsym).
  destruct d as [oid osym oty osd oq op c]. simpl in *. subst.
  destruct osym as [sym|]; [|done].
  assert (Hq' : (q <=? 0) = false) by (by apply Z.leb_gt).
  unfold MatchingEngine._create_order_from_data, MatchingEngine.new_order,
    MatchingEngine.bind, MatchingEngine.subscript, MatchingEngine.deref,
    MatchingEngine.store, MatchingEngine.gets, MatchingEngine.modify,
    MatchingEngine.lift, MatchingEngine.ret, MatchingEngine.raise, Heap.alloc.
  cbn [OrderData.order_id OrderData.side OrderData.order_type OrderData.quantity
       OrderData.symbol OrderData.price OrderData.client_id].
  assert (Hp : forall P : Prop, (lower ty = "market" -> P) ->
                 (lower ty <> "market" -> P) -> P).
  { intros P H1 H2. destruct (decide (lower ty = "market")); auto. }
  destruct (match oid with
            | Some s => if bool_decide (s = "") then None else Some s
            | None => None
            end);
    destruct Hlsd as [-> | ->];
    destruct Hlty as [Hl | [Hl | [Hl | Hl]]]; rewrite Hl in *;
    (destruct op as [price|];
     [try (exfalso; destruct Hmk as [Hmk _]; by specialize (Hmk eq_refl))
     |try (exfalso; destruct Hmk as [_ Hmk]; by specialize (Hmk eq_refl))]);
    cbn; rewrite ?deref_alloc; unfold Order.initialize; cbn; rewrite Hq'; cbn; eauto.
Qed.

Lemma create_order_needs_symbol d e l :
  OrderData.symbol d = None ->
  fst (MatchingEngine._create_order_from_data d e) <> Ok l.
Proof.
  unfold MatchingEngine._create_order_from_data, MatchingEngine.new_order,
    MatchingEngine.bind, MatchingEngine.subscript, MatchingEngine.deref,
    MatchingEngine.store, MatchingEngine.gets, MatchingEngine.modify,
    MatchingEngine.lift, MatchingEngine.ret, MatchingEngine.raise, Heap.alloc.
  destruct d as [oid dsym dty dside dq dp dc]; simpl. intros ->.
  repeat mstep; done.
Qed.

Lemma create_order_accepted d e l :
  fst (MatchingEngine._create_order_from_data d e) = Ok l -> acceptable d.
Proof.
  intros Hfst.
  destruct (MatchingEngine._create_order_from_data d e) as [res e2] eqn:Hc.
  cbn [fst] in Hfst. subst res.
  pose proof (f_equal fst Hc) as Hfst. cbn [fst] in Hfst.
  apply create_order_spec in Hc as (o & _ & Hok).
  destruct (Hok l eq_refl) as [_ Hcr].
  destruct Hcr as (Hsym & (s & raw & Hs & Hds & Hlow) & (ty & raw' & Ht & Hdt & Hlow' & Hmk)
                   & Hp & Hq & Hrem & Hpos & _).
  unfold acceptable. split; [|split; [|split]].
  - exists raw. split; [done|]. rewrite Hlow. destruct s; simpl; auto.
  - exists raw'. split; [done|]. rewrite Hlow'. split; [destruct ty; simpl; auto|].
    rewrite <- Hmk. destruct ty; simpl; split; congruence.
  - eauto.
  - intros Hn. by apply (create_order_needs_symbol d e l Hn).
Qed.

(** X10.  [_create_order_from_data] returns an order exactly for the
    [acceptable] requests: symbol present, side and type known once
    lower-cased, positive quantity, a price iff the type is not market. *)
Theorem order_creation_accepts_exactly_the_acceptable (d : OrderData.t)
    (e : MatchingEngine.t) :
  acceptable d <-> exists l, fst (MatchingEngine._create_order_from_data d e) = Ok l.
Proof.
  split.
  - apply create_order_accepts.
  - intros [l Hl]. by eapply create_order_accepted.
Qed.

(** X11.  A request lacking a required key is rejected with the error naming
    the first missing key, and the engine is not touched. *)
Theorem missing_field_is_rejected_before_any_effect (d : OrderData.t)
    (e : MatchingEngine.t) (field : string) :
  first_missing d = Some field ->
  MatchingEngine.submit_order d e
  = (MatchingEngine.ErrorResponse (default "UNKNOWN" (OrderData.order_id d))
       (ValueError (Missing_required_field field)), e).
Proof.
  unfold first_missing, MatchingEngine.submit_order, MatchingEngine.submit_order_try,
    MatchingEngine.check_required.
  unfold MatchingEngine.bind at 1.
  destruct (OrderData.symbol d); [|by intros [= <-]].
  destruct (OrderData.order_type d); [|by intros [= <-]].
  destruct (OrderData.side d); [|by intros [= <-]].
  destruct (OrderData.quantity d); [|by intros [= <-]].
  done.
Qed.

(** X12.  Every document returned by [submit_order] has status rejected; an
    order document (as opposed to an error document) is that of a FOK order
    with nothing filled. *)
Theorem every_submission_is_answered_rejected (d : OrderData.t) (e : MatchingEngine.t) :
  MatchingEngine.response_status (fst (MatchingEngine.submit_order d e))
  = status_value REJECTED
  /\ match fst (MatchingEngine.submit_order d e) with
     | MatchingEngine.OrderResponse doc avg_fill_price =>
       Order.d_order_type doc = Some (type_value FOK)
       /\ Order.d_filled_quantity doc = 0
       /\ avg_fill_price = None
     | MatchingEngine.ErrorResponse _ _ => True
     end.
Proof.
  destruct (MatchingEngine.submit_order d e) as [r e'] eqn:Hs. cbn [fst].
  apply submit_order_cases in Hs
    as [(_ & _ & x & ->)|[(sym & o & n & x & _ & _ & _ & ->)
                         |(sym & o & n & b & _ & Hcr & _ & Hc)]]; try done.
  cbn zeta in Hc. destruct Hc as [(_ & _ & x & ->)|([Hfok _] & _ & _ & _ & Hres)]; [done|].
  destruct Hres as [->|[x ->]]; [|done].
  destruct Hcr as (_ & _ & _ & _ & _ & _ & _ & Hfill & _).
  cbn. by rewrite Hfok, Hfill.
Qed.

(** X13.  No submission records a trade or rests an order: trade history,
    trade counter and registry are unchanged, the log gains at most the
    ORDER_SUBMIT record of the new order, existing books keep their
    content, a book that appears is an empty one for the request's symbol,
    and the books refer to the same orders as before. *)
Theorem no_submission_trades_or_rests (d : OrderData.t) (e : MatchingEngine.t) :
  let e' := snd (MatchingEngine.submit_order d e) in
  MatchingEngine.trade_history e' = MatchingEngine.trade_history e
  /\ MatchingEngine.trade_id_counter e' = MatchingEngine.trade_id_counter e
  /\ MatchingEngine.advanced_orders e' = MatchingEngine.advanced_orders e
  /\ (MatchingEngine.wal e' = MatchingEngine.wal e
      \/ exists o, created d o
                   /\ MatchingEngine.wal e' = MatchingEngine.wal e ++ [submit_entry o])
  /\ (forall s b, MatchingEngine.books_get s (MatchingEngine.order_books e) = Some b ->
        exists b', MatchingEngine.books_get s (MatchingEngine.order_books e') = Some b'
                   /\ same_content b b')
  /\ (forall s b', MatchingEngine.books_get s (MatchingEngine.order_books e) = None ->
        MatchingEngine.books_get s (MatchingEngine.order_books e') = Some b' ->
        OrderData.symbol d = Some s /\ same_content (OrderBook.init s) b')
  /\ resting e' = resting e.
Proof.
  cbn zeta.
  split; [apply (preserves_submit_order MatchingEngine.trade_history); repeat split|].
  split; [apply (preserves_submit_order MatchingEngine.trade_id_counter); repeat split|].
  split; [apply (preserves_submit_order MatchingEngine.advanced_orders); repeat split|].
  destruct (MatchingEngine.submit_order d e) as [r e'] eqn:Hs. cbn [snd].
  assert (Hbooks : e' = e
            \/ exists sym, OrderData.symbol d = Some sym
                 /\ same_books (MatchingEngine.order_books (with_symbol sym e))
                      (MatchingEngine.order_books e')).
  { apply submit_order_cases in Hs
      as [(-> & _)|[(sym & o & n & x & Hsym & _ & -> & _)
                   |(sym & o & n & b & Hsym & _ & _ & Hc)]].
    - by left.
    - right. exists sym. split; [done|]. apply same_books_refl.
    - right. exists sym. split; [done|]. cbn zeta in Hc.
      destruct Hc as [(_ & -> & _)|(_ & _ & Hb & _)]; [apply same_books_refl|exact Hb]. }
  split.
  { apply submit_order_cases in Hs
      as [(-> & _)|[(sym & o & n & x & _ & _ & -> & _)
                   |(sym & o & n & b & _ & Hcr & _ & Hc)]].
    - by left.
    - left. cbn. apply with_symbol_wal.
    - right. exists o. split; [done|]. cbn zeta in Hc.
      destruct Hc as [(_ & -> & _)|(_ & _ & _ & Hpres & _)]; [done|].
      by rewrite (Hpres _ MatchingEngine.wal ltac:(repeat split)). }
  destruct Hbooks as [->|(sym & Hsym & Hsame)].
  { split; [|split; [|done]].
    - intros s b Hb. exists b. split; [done|apply same_content_refl].
    - intros s b' Hn Hb. congruence. }
  split; [|split].
  - intros s b Hb.
    pose proof (books_get_same s _ _ Hsame) as Hg.
    assert (Hw : MatchingEngine.books_get s (MatchingEngine.order_books (with_symbol sym e))
                 = Some b).
    { destruct (with_symbol_books sym e) as [-> | ->]; [done|].
      clear -Hb. induction (MatchingEngine.order_books e) as [|[k v] r IH]; simpl in *;
        [done|]. case_bool_decide; [done|by apply IH]. }
    rewrite Hw in Hg.
    destruct (MatchingEngine.books_get s (MatchingEngine.order_books e')) as [b'|];
      [|done]. by exists b'.
  - intros s b' Hn Hb.
    pose proof (books_get_same s _ _ Hsame) as Hg. rewrite Hb in Hg.
    destruct (MatchingEngine.books_get s (MatchingEngine.order_books (with_symbol sym e)))
      as [b0|] eqn:Hw; [|done].
    destruct (with_symbol_books sym e) as [Heq | Heq]; rewrite Heq in Hw; [congruence|].
    assert (Hw' : s = sym /\ b0 = OrderBook.init sym).
    { clear -Hn Hw. induction (MatchingEngine.order_books e) as [|[k v] r IH]; simpl in *.
      - case_bool_decide; [|done]. by injection Hw as <-.
      - case_bool_decide; [done|]. by apply IH. }
    destruct Hw' as [-> ->]. done.
  - rewrite (same_books_resting _ _ Hsame).
    unfold resting. destruct (with_symbol_books sym e) as [-> | ->]; [done|].
    rewrite fmap_app, join_app. cbn. unfold book_refs. cbn.
    rewrite map_to_list_empty. cbn. by rewrite !app_nil_r.
Qed.

Lemma created_acceptable d o sym :
  OrderData.symbol d = Some sym -> created d o -> acceptable d.
Proof.
  intros Hsym (_ & (s & raw & Hs & Hds & Hlow) & (ty & raw' & Ht & Hdt & Hlow' & Hmk)
               & Hp & Hq & Hrem & Hpos & _).
  unfold acceptable. split; [|split; [|split]].
  - exists raw. split; [done|]. rewrite Hlow. destruct s; simpl; auto.
  - exists raw'. split; [done|]. rewrite Hlow'. split; [destruct ty; simpl; auto|].
    rewrite <- Hmk. destruct ty; simpl; split; congruence.
  - eauto.
  - by rewrite Hsym.
Qed.

(** X14.  The log gains the ORDER_SUBMIT record of the created order exactly
    when the request is [acceptable]; otherwise it is unchanged. *)
Theorem a_request_is_logged_exactly_when_acceptable (d : OrderData.t)
    (e : MatchingEngine.t) :
  let e' := snd (MatchingEngine.submit_order d e) in
  (acceptable d
   /\ exists o, created d o
                /\ MatchingEngine.wal e' = MatchingEngine.wal e ++ [submit_entry o])
  \/ (~ acceptable d /\ MatchingEngine.wal e' = MatchingEngine.wal e).
Proof.
  cbn zeta. destruct (MatchingEngine.submit_order d e) as [r e'] eqn:Hs. cbn [snd].
  apply submit_order_cases in Hs
    as [(-> & Hmiss & _)|[(sym & o & n & x & Hsym & Hraise & -> & _)
                         |(sym & o & n & b & Hsym & Hcr & _ & Hc)]].
  - right. split; [|done].
    intros ((sd & Hsd & _) & (ty & Hty & _) & (q & Hq & _) & Hsy).
    destruct Hmiss as [H|[H|[H|H]]]; congruence.
  - right. split; [|cbn; apply with_symbol_wal].
    intros Hacc. destruct (create_order_accepts d (with_symbol sym e) Hacc) as [l Hl].
    congruence.
  - left. split; [by eapply created_acceptable|]. exists o. split; [done|].
    cbn zeta in Hc. destruct Hc as [(_ & -> & _)|(_ & _ & _ & Hpres & _)]; [done|].
    by rewrite (Hpres _ MatchingEngine.wal ltac:(repeat split)).
Qed.

(** X15.  [initialize_symbol] keeps an existing book, creates an empty one
    otherwise, leaves other symbols alone and is idempotent. *)
Theorem initialize_symbol_never_replaces_a_book (symbol : string) (e : MatchingEngine.t) :
  let e1 := snd (MatchingEngine.initialize_symbol symbol e) in
  MatchingEngine.books_get symbol (MatchingEngine.order_books e1)
  = Some (default (OrderBook.init symbol)
            (MatchingEngine.books_get symbol (MatchingEngine.order_books e)))
  /\ (forall s, s <> symbol ->
        MatchingEngine.books_get s (MatchingEngine.order_books e1)
        = MatchingEngine.books_get s (MatchingEngine.order_books e))
  /\ MatchingEngine.initialize_symbol symbol e1 = (Ok tt, e1).
Proof.
  cbn zeta. unfold MatchingEngine.initialize_symbol, MatchingEngine.modify. cbn [snd].
  assert (Happ : forall s bs,
            MatchingEngine.books_get s (bs ++ [(symbol, OrderBook.init symbol)])
            = match MatchingEngine.books_get s bs with
              | Some b => Some b
              | None => if bool_decide (symbol = s) then Some (OrderBook.init symbol) else None
              end).
  { intros s bs. induction bs as [|[k v] r IH];
      cbn [app MatchingEngine.books_get]; [by case_bool_decide|].
    destruct (bool_decide (k = s)); [done|apply IH]. }
  destruct (MatchingEngine.books_get symbol (MatchingEngine.order_books e)) as [b|] eqn:Hb.
  - cbn. rewrite ?Hb. done.
  - cbn [MatchingEngine.order_books MatchingEngine.set_order_books].
    rewrite !Happ, Hb. rewrite bool_decide_true by done.
    split; [done|]. split; [|done].
    intros s Hs. rewrite Happ. rewrite bool_decide_false by done.
    by destruct (MatchingEngine.books_get s (MatchingEngine.order_books e)).
Qed.


(** ** The fill-or-kill dry run *)






(** ** Cancelling *)

Lemma cancel_loop_skip id pre rest :
  Forall (fun sb : string * OrderBook.t => OrderBook.orders sb.2 !! id = None) pre ->
  forall i e,
    MatchingEngine.cancel_loop id i (pre ++ rest) e
    = MatchingEngine.cancel_loop id (i + List.length pre) rest e.
Proof.
  induction 1 as [|[s b] r Hb _ IH]; intros i e; simpl.
  - by rewrite Nat.add_0_r.
  - unfold OrderBook.get_order. cbn in Hb. rewrite Hb, IH. f_equal. lia.
Qed.

Lemma broadcast_without_manager s trades e :
  MatchingEngine.websocket_manager e = None ->
  MatchingEngine._broadcast_updates s trades e = (Ok tt, e).
Proof.
  intros H. unfold MatchingEngine._broadcast_updates, MatchingEngine.bind,
    MatchingEngine.gets. by rewrite H.
Qed.

Lemma cancel_order_refused id e pre s b post l :
  first_indexed id e pre s b post l ->
  cancellable (Order.status (Heap.deref (MatchingEngine.heap e) l)) = false ->
  MatchingEngine.cancel_order id e
  = (Raise (ValueError (Cannot_cancel_order_in_state
                          (Order.status (Heap.deref (MatchingEngine.heap e) l)))), e).
Proof.
  intros (Hbooks & Hpre & Hl) Hst.
  unfold MatchingEngine.cancel_order. unfold MatchingEngine.bind at 1.
  unfold MatchingEngine.gets at 1. rewrite Hbooks, (cancel_loop_skip id pre _ Hpre).
  cbn [MatchingEngine.cancel_loop]. unfold OrderBook.get_order. rewrite Hl.
  unfold MatchingEngine.bind at 1. unfold MatchingEngine.deref at 1, MatchingEngine.gets at 1.
  unfold cancellable in Hst. by rewrite Hst.
Qed.

Lemma cancel_order_done id e pre s b post l :
  first_indexed id e pre s b post l ->
  (l < List.length (MatchingEngine.heap e))%nat ->
  cancellable (Order.status (Heap.deref (MatchingEngine.heap e) l)) = true ->
  let o := Heap.deref (MatchingEngine.heap e) l in
  let b' := snd (OrderBook.remove_order (MatchingEngine.heap e) b id) in
  let e1 := MatchingEngine.set_heap
              (Heap.store (MatchingEngine.heap e) l (Order.set_status CANCELLED o))
              (MatchingEngine.set_order_books (pre ++ (s, b') :: post) e) in
  MatchingEngine.cancel_order id e
  = match MatchingEngine._broadcast_updates (Order.symbol o) [] e1 with
    | (Ok _, e') => (Ok (Order.to_dict (Order.set_status CANCELLED o),
                         Order.remaining_qty o), e')
    | (Raise x, e') => (Raise x, e')
    end.
Proof.
  intros (Hbooks & Hpre & Hl) Hvalid Hst. cbn zeta.
  unfold MatchingEngine.cancel_order. unfold MatchingEngine.bind at 1.
  unfold MatchingEngine.gets at 1. rewrite Hbooks, (cancel_loop_skip id pre _ Hpre).
  cbn [MatchingEngine.cancel_loop]. unfold OrderBook.get_order. rewrite Hl.
  unfold MatchingEngine.bind at 1. unfold MatchingEngine.deref at 1, MatchingEngine.gets at 1.
  unfold cancellable in Hst. rewrite Hst.
  unfold MatchingEngine.bind at 1. unfold MatchingEngine.gets at 1.
  assert (Hrm : fst (OrderBook.remove_order (MatchingEngine.heap e) b id) = Some l)
    by (unfold OrderBook.remove_order; by rewrite Hl).
  destruct (OrderBook.remove_order (MatchingEngine.heap e) b id) as [removed b'].
  cbn [fst snd] in *. subst removed.
  unfold MatchingEngine.bind at 1. unfold MatchingEngine.modify at 1.
  cbn [MatchingEngine.order_books MatchingEngine.set_order_books].
  rewrite Hbooks. rewrite Nat.add_0_l.
  rewrite insert_app_r_alt by lia. rewrite Nat.sub_diag. cbn [insert list_insert].
  unfold MatchingEngine.bind at 1. unfold MatchingEngine.deref at 1, MatchingEngine.gets at 1.
  cbn [MatchingEngine.heap MatchingEngine.set_order_books].
  set (o := Heap.deref (MatchingEngine.heap e) l) in *.
  assert (Hc : Order.cancel o = (Ok tt, Order.set_status CANCELLED o)).
  { unfold Order.cancel.
    destruct (Order.status o); cbn in Hst |- *; done. }
  rewrite Hc.
  unfold MatchingEngine.bind at 1. unfold MatchingEngine.store at 1, MatchingEngine.modify at 1.
  cbn [MatchingEngine.heap MatchingEngine.set_order_books].
  unfold MatchingEngine.bind at 1. unfold MatchingEngine.lift at 1.
  unfold MatchingEngine.bind at 1.
  cbn [Order.symbol Order.set_status].
  set (e1 := MatchingEngine.set_heap _ _).
  pose proof (preserves_broadcast_updates MatchingEngine.heap heap_view_independent
                (Order.symbol o) [] e1) as Hh.
  destruct (MatchingEngine._broadcast_updates (Order.symbol o) [] e1) as [[[]|x] e2];
    [|done].
  cbn [snd] in Hh.
  unfold MatchingEngine.bind at 1. unfold MatchingEngine.deref at 1, MatchingEngine.gets at 1.
  unfold MatchingEngine.ret. rewrite Hh. subst e1. cbn [MatchingEngine.heap MatchingEngine.set_heap].
  by rewrite deref_store.
Qed.

(** X18.  [cancel_order] acts on the first book that indexes the id.  An
    OPEN or PARTIAL order leaves that book's index and becomes CANCELLED,
    the response being its document and remainder (or, with a manager
    attached, possibly an exception raised after the cancellation); if no
    later book holds the id, lookup and a second cancel find nothing.  An
    order in any other status makes the call raise and change nothing. *)
Theorem cancel_order_acts_on_the_first_book_that_indexes_the_id
    (order_id : string) (e : MatchingEngine.t) (pre : list (string * OrderBook.t))
    (s : string) (b : OrderBook.t) (post : list (string * OrderBook.t)) (l : loc) :
  first_indexed order_id e pre s b post l ->
  (l < List.length (MatchingEngine.heap e))%nat ->
  let o := Heap.deref (MatchingEngine.heap e) l in
  let b' := snd (OrderBook.remove_order (MatchingEngine.heap e) b order_id) in
  if cancellable (Order.status o) then
    exists res e',
      MatchingEngine.cancel_order order_id e = (res, e')
      /\ MatchingEngine.heap e'
         = Heap.store (MatchingEngine.heap e) l (Order.set_status CANCELLED o)
      /\ same_books (pre ++ (s, b') :: post) (MatchingEngine.order_books e')
      /\ OrderBook.get_order b' order_id = None
      /\ (res = Ok (Order.to_dict (Order.set_status CANCELLED o), Order.remaining_qty o)
          \/ (MatchingEngine.websocket_manager e <> None /\ exists x, res = Raise x))
      /\ (Forall (fun sb : string * OrderBook.t =>
                    OrderBook.orders sb.2 !! order_id = None) post ->
          MatchingEngine.get_order order_id e' = None
          /\ MatchingEngine.cancel_order order_id e'
             = (Raise (ValueError (Order_not_found order_id)), e'))
  else
    MatchingEngine.cancel_order order_id e
    = (Raise (ValueError (Cannot_cancel_order_in_state (Order.status o))), e).
Proof.
  intros Hfirst Hvalid o b'.
  destruct (cancellable (Order.status o)) eqn:Hst;
    [|by apply (cancel_order_refused order_id e pre s b post l)].
  pose proof (cancel_order_done order_id e pre s b post l Hfirst Hvalid Hst) as Hrun.
  cbn zeta in Hrun. fold o b' in Hrun.
  set (e1 := MatchingEngine.set_heap _ _) in Hrun.
  pose proof (preserves_broadcast_updates MatchingEngine.heap heap_view_independent
                (Order.symbol o) [] e1) as Hh.
  pose proof (broadcast_same_books (Order.symbol o) [] e1) as Hb.
  pose proof (broadcast_without_manager (Order.symbol o) [] e1) as Hnone.
  destruct (MatchingEngine._broadcast_updates (Order.symbol o) [] e1) as [r e2].
  cbn [snd] in Hh, Hb.
  assert (Hidx : OrderBook.get_order b' order_id = None) by apply remove_order_unindexed.
  assert (Hrest : Forall (fun sb : string * OrderBook.t =>
                            OrderBook.orders sb.2 !! order_id = None) post ->
                  not_indexed order_id e2).
  { intros Hpost. destruct Hfirst as (_ & Hpre & _).
    eapply same_books_index; [exact Hb|].
    subst e1. cbn. apply Forall_app. split; [done|]. by constructor. }
  exists (match r with
          | Ok _ => Ok (Order.to_dict (Order.set_status CANCELLED o), Order.remaining_qty o)
          | Raise x => Raise x
          end), e2.
  split; [rewrite Hrun; by destruct r|].
  split; [by rewrite Hh|]. split; [exact Hb|]. split; [exact Hidx|]. split.
  - destruct r as [[]|x]; [by left|right]. split; [|by exists x].
    intros Hn. specialize (Hnone Hn). discriminate.
  - intros Hpost. specialize (Hrest Hpost). split.
    + by apply get_order_loop_none.
    + unfold MatchingEngine.cancel_order, MatchingEngine.bind, MatchingEngine.gets.
      by apply cancel_loop_not_found.
Qed.

(** ** The log *)

(** X19.  Recovery re-submits the ORDER_SUBMIT records in order and ignores
    the others: the engine it leaves depends on those records only, and the
    counts are the numbers of ORDER_SUBMIT and TRADE_EXECUTE records. *)
Theorem recovery_reads_only_the_submissions {E : Type}
    (submit_order : OrderData.t -> E -> E) (w : list WriteAheadLog.entry) (e : E) :
  WriteAheadLog.recover_order_book w submit_order e
  = ((List.length (List.filter is_order_submit w),
      List.length (List.filter is_trade_execute w)),
     snd (WriteAheadLog.recover_order_book (List.filter is_order_submit w) submit_order e))
  /\ snd (WriteAheadLog.recover_order_book w submit_order e)
     = foldl (fun e en => match en with
                          | WriteAheadLog.ORDER_SUBMIT d => submit_order d e
                          | _ => e
                          end) e w.
Proof.
  unfold WriteAheadLog.recover_order_book, WriteAheadLog.replay.
  assert (H : forall entries o t o' t' e,
            WriteAheadLog.recover_loop submit_order entries o t e
            = ((o + List.length (List.filter is_order_submit entries),
                t + List.length (List.filter is_trade_execute entries))%nat,
               snd (WriteAheadLog.recover_loop submit_order
                      (List.filter is_order_submit entries) o' t' e))
            /\ snd (WriteAheadLog.recover_loop submit_order entries o t e)
               = foldl (fun e en => match en with
                                    | WriteAheadLog.ORDER_SUBMIT d => submit_order d e
                                    | _ => e
                                    end) e entries).
  { induction entries as [|[d| |] rest IH]; intros o t o' t' e0; cbn.
    - split; [|done]. f_equal. f_equal; lia.
    - destruct (IH (S o) t (S o') t' (submit_order d e0)) as [-> ->].
      split; [|done]. f_equal. f_equal; lia.
    - destruct (IH o (S t) o' t' e0) as [-> ->].
      split; [|done]. f_equal. f_equal; lia.
    - destruct (IH o t o' t' e0) as [-> ->]. done. }
  apply (H w 0%nat 0%nat 0%nat 0%nat e).
Qed.

Lemma create_order_id_nonempty d e l e1 :
  MatchingEngine._create_order_from_data d e = (Ok l, e1) ->
  Order.order_id (Heap.deref (MatchingEngine.heap e1) l) <> "".
Proof.
  unfold MatchingEngine._create_order_from_data, MatchingEngine.new_order,
    MatchingEngine.bind, MatchingEngine.subscript, MatchingEngine.deref,
    MatchingEngine.store, MatchingEngine.gets, MatchingEngine.modify,
    MatchingEngine.lift, MatchingEngine.ret, MatchingEngine.raise, Heap.alloc.
  destruct d as [oid dsym dty dside dq dp dc]; simpl.
  repeat mstep.
  all: rewrite ?deref_alloc.
  all: unfold Order.initialize; simpl.
  all: repeat mstep.
  all: rewrite ?store_alloc.
  all: intros [= <- <-]; cbn; rewrite ?deref_alloc; cbn.
  all: hyps_to_prop; try done.
  all: destruct oid as [s'|]; [|done]; case_bool_decide; congruence.
Qed.

Lemma lower_side_value s s' : lower (side_value s) = side_value s' -> s = s'.
Proof. by destruct s, s'. Qed.

Lemma lower_type_value t t' : lower (type_value t) = type_value t' -> t = t'.
Proof. by destruct t, t'. Qed.

(** X20.  The logged record of a newly created order, given back to
    [_create_order_from_data], builds an equal order object; unless the
    price is zero, which is logged as no price and cannot be re-created. *)
Theorem logged_record_recreates_the_order (d : OrderData.t) (e : MatchingEngine.t)
    (l : loc) (e1 : MatchingEngine.t) :
  MatchingEngine._create_order_from_data d e = (Ok l, e1) ->
  let o := Heap.deref (MatchingEngine.heap e1) l in
  submit_entry o = WriteAheadLog.ORDER_SUBMIT (logged_data o)
  /\ forall e' : MatchingEngine.t,
       if bool_decide (Order.price o = Some 0) then
         fst (MatchingEngine._create_order_from_data (logged_data o) e')
         = Raise (ValueError Limit_orders_must_have_a_price)
       else
         exists l' e2,
           MatchingEngine._create_order_from_data (logged_data o) e' = (Ok l', e2)
           /\ Heap.deref (MatchingEngine.heap e2) l' = o.
Proof.
  intros Hc o. split; [reflexivity|]. intros e'.
  pose proof (create_order_id_nonempty d e l e1 Hc) as Hid. fold o in Hid.
  pose proof (create_order_accepted d e l ltac:(by rewrite Hc)) as Hacc.
  pose proof Hc as Hc'. apply create_order_spec in Hc' as (o0 & He1 & Hok).
  destruct (Hok l eq_refl) as [Hl Hcr]. clear Hok.
  assert (Ho : o = o0).
  { subst o. rewrite He1, Hl. cbn. apply deref_alloc. }
  rewrite <- Ho in Hcr. clear Ho He1 o0.
  destruct Hcr as (Hsym & (s & raw & Hs & Hds & Hlow) & (ty & raw' & Ht & Hdt & Hlow' & Hmk)
                   & Hp & Hq & Hrem & Hpos & Hfill & Hst & Hcl & _).
  destruct Hacc as (_ & _ & _ & Hsome).
  destruct (OrderData.symbol d) as [sym|] eqn:Hdsym; [|done]. clear Hsome.
  case_bool_decide as Hzero.
  - (* a price of zero is logged as no price *)
    assert (Hty : ty <> MARKET).
    { intros ->. destruct Hmk as [Hmk _]. specialize (Hmk eq_refl).
      rewrite Hp, Hmk in Hzero. discriminate. }
    unfold logged_data. rewrite Hsym, Hs, Ht, Hzero. cbn [fmap option_fmap option_map Order.truthy].
    unfold MatchingEngine._create_order_from_data, MatchingEngine.new_order,
      MatchingEngine.bind, MatchingEngine.subscript, MatchingEngine.deref,
      MatchingEngine.store, MatchingEngine.gets, MatchingEngine.modify,
      MatchingEngine.lift, MatchingEngine.ret, MatchingEngine.raise, Heap.alloc.
    cbn [OrderData.order_id OrderData.side OrderData.order_type OrderData.quantity
         OrderData.symbol OrderData.price OrderData.client_id].
    rewrite bool_decide_false by done.
    destruct s, ty; try done; cbn; rewrite ?deref_alloc; reflexivity.
  - assert (Htruthy : Order.truthy (Order.price o) = Order.price o).
    { destruct (Order.price o) as [v|]; [|done]. cbn.
      destruct (v =? 0) eqn:Hv; [|done]. apply Z.eqb_eq in Hv. by subst. }
    assert (Hacc' : acceptable (logged_data o)).
    { unfold acceptable, logged_data. cbn. rewrite Hs, Ht, Htruthy. cbn.
      split; [exists (side_value s); split; [done|]; destruct s; auto|].
      split; [exists (type_value ty); split; [done|]; split; [destruct ty; auto|]|].
      { rewrite Hp, <- Hmk. destruct ty; cbn; split; intros H; done. }
      split; [eauto|]. by rewrite Hsym. }
    destruct (create_order_accepts (logged_data o) e' Hacc') as [l' Hl'].
    destruct (MatchingEngine._create_order_from_data (logged_data o) e') as [res e2] eqn:Hc2.
    cbn [fst] in Hl'. subst res. exists l', e2. split; [done|].
    apply create_order_spec in Hc2 as (o' & He2 & Hok').
    destruct (Hok' l' eq_refl) as [-> Hcr']. rewrite He2. cbn. rewrite deref_alloc.
    destruct Hcr' as (Hsym' & (s' & r1 & Hs' & Hds' & Hlow1)
                      & (ty' & r2 & Ht' & Hdt' & Hlow2 & _)
                      & Hp' & Hq' & Hrem' & _ & Hfill' & Hst' & Hcl' & Hid').
    unfold logged_data in *. cbn in *.
    rewrite Hs in Hds'. cbn in Hds'. injection Hds' as <-.
    rewrite Ht in Hdt'. cbn in Hdt'. injection Hdt' as <-.
    apply lower_side_value in Hlow1. apply lower_type_value in Hlow2. subst s' ty'.
    injection Hq' as Hq'. specialize (Hid' _ eq_refl Hid).
    destruct o, o'. cbn in *. subst. f_equal; congruence.
Qed.

(** ** Fees and conditional orders *)

(** X21.  For a non-negative notional the maker fee is non-negative and at
    most the taker fee, in every tier; an unknown tier pays the default
    fees. *)
Theorem maker_fee_never_exceeds_taker_fee (price quantity : Z) (client_tier : string) :
  0 <= price * quantity ->
  (0 <= FeeCalculator.calculate_fees price quantity true client_tier)%Q
  /\ (FeeCalculator.calculate_fees price quantity true client_tier
      <= FeeCalculator.calculate_fees price quantity false client_tier)%Q
  /\ (FeeCalculator.fee_tiers client_tier = None ->
      forall is_maker,
        FeeCalculator.calculate_fees price quantity is_maker client_tier
        = FeeCalculator.calculate_fees price quantity is_maker "default").
Proof.
  intros Hn. unfold FeeCalculator.calculate_fees, FeeCalculator.fee_tiers.
  repeat case_bool_decide; cbn [default from_option fst snd id];
    (split; [|split; [|done]]); unfold Qle; cbn; nia.
Qed.

(** X22.  [check_trigger] answers True at most once: after a call the order
    is activated iff it was before or the call answered True, an activated
    order never triggers, and a call that answers False leaves the order as
    it was. *)
Theorem a_conditional_order_triggers_at_most_once (o : AdvancedOrder.t) (p p' : Z) :
  let r := AdvancedOrder.check_trigger o p in
  AdvancedOrder.activated r.2 = (AdvancedOrder.activated o || r.1)
  /\ (r.1 = true -> AdvancedOrder.check_trigger r.2 p' = (false, r.2))
  /\ (r.1 = false -> r.2 = o).
Proof.
  cbn zeta. destruct (AdvancedOrder.check_trigger o p) as [t o'] eqn:Hc. cbn [fst snd].
  unfold AdvancedOrder.check_trigger in Hc.
  destruct (AdvancedOrder.activated o) eqn:Ha.
  - injection Hc as <- <-. rewrite Ha. split; [done|]. split; [done|done].
  - injection Hc as Ht <-. rewrite Ht.
    cbn [AdvancedOrder.activated AdvancedOrder.set_activated orb].
    split; [done|]. split.
    + intros ->. unfold AdvancedOrder.check_trigger. by cbn.
    + intros ->. destruct o; cbn in *. by subst.
Qed.

(** X23.  The trigger test compares the side case-sensitively, order
    creation does not: a side like BUY is triggered by the sell rule and
    submitted as a BUY. *)
Theorem trigger_side_is_case_sensitive_but_submission_is_not
    (o : AdvancedOrder.t) (current_price : Z) :
  lower (AdvancedOrder.side o) = "buy" ->
  AdvancedOrder.side o <> "buy" ->
  AdvancedOrder.activated o = false ->
  fst (AdvancedOrder.check_trigger o current_price) = sell_rule o current_price
  /\ forall e l e1,
       MatchingEngine._create_order_from_data (AdvancedOrder.to_limit_order o) e
       = (Ok l, e1) ->
       Order.side (Heap.deref (MatchingEngine.heap e1) l) = Some BUY.
Proof.
  intros Hlow Hne Ha. split.
  - unfold AdvancedOrder.check_trigger, sell_rule. rewrite Ha.
    rewrite (bool_decide_false (AdvancedOrder.side o = "buy")) by done. done.
  - intros e l e1 Hc. apply create_order_spec in Hc as (o0 & -> & Hok).
    destruct (Hok l eq_refl) as [-> Hcr]. cbn. rewrite deref_alloc.
    destruct Hcr as (_ & (s & raw & Hs & Hds & Hl) & _).
    cbn in Hds. injection Hds as <-. rewrite Hlow in Hl. rewrite Hs. by destruct s.
Qed.

(** X24.  [submit_advanced_order] touches neither books, log nor orders;
    on success the unactivated order, built from the request's fields, goes
    to the end of its symbol's registry, and on failure (a missing key or an
    unknown type value) the registry is unchanged. *)
Theorem registration_appends_to_the_registry_of_the_symbol
    (d : MatchingEngine.advanced_data) (e : MatchingEngine.t) :
  let '(res, e') := MatchingEngine.submit_advanced_order d e in
  MatchingEngine.order_books e' = MatchingEngine.order_books e
  /\ MatchingEngine.wal e' = MatchingEngine.wal e
  /\ MatchingEngine.heap e' = MatchingEngine.heap e
  /\ match res with
     | Ok o =>
       MatchingEngine.ad_symbol d = Some (AdvancedOrder.symbol o)
       /\ MatchingEngine.ad_side d = Some (AdvancedOrder.side o)
       /\ MatchingEngine.ad_quantity d = Some (AdvancedOrder.quantity o)
       /\ MatchingEngine.ad_order_type d
          = Some (advanced_type_value (AdvancedOrder.order_type o))
       /\ MatchingEngine.ad_trigger_price d = Some (AdvancedOrder.trigger_price o)
       /\ AdvancedOrder.limit_price o = MatchingEngine.ad_limit_price d
       /\ AdvancedOrder.activated o = false
       /\ MatchingEngine.advanced_orders e' !! AdvancedOrder.symbol o
          = Some (default [] (MatchingEngine.advanced_orders e !! AdvancedOrder.symbol o)
                  ++ [o])
       /\ (forall s, s <> AdvancedOrder.symbol o ->
             MatchingEngine.advanced_orders e' !! s
             = MatchingEngine.advanced_orders e !! s)
     | Raise x =>
       MatchingEngine.advanced_orders e' = MatchingEngine.advanced_orders e
       /\ (MatchingEngine.ad_symbol d = None \/ MatchingEngine.ad_side d = None
           \/ MatchingEngine.ad_quantity d = None \/ MatchingEngine.ad_order_type d = None
           \/ MatchingEngine.ad_trigger_price d = None
           \/ exists s, MatchingEngine.ad_order_type d = Some s
                        /\ advanced_type_of_value s = None)
     end.
Proof.
  unfold MatchingEngine.submit_advanced_order, MatchingEngine.submit_advanced_order_try,
    MatchingEngine.bind, MatchingEngine.gets, MatchingEngine.subscript,
    MatchingEngine.modify, MatchingEngine.ret, MatchingEngine.raise.
  destruct d as [oid sym side q ty tp lp c]; cbn.
  destruct oid as [id|], sym as [s|], side as [sd|], q as [qq|], ty as [t|], tp as [tr|];
    cbn; try (repeat split; tauto).
  all: destruct (advanced_type_of_value t) as [k|] eqn:Hk; cbn;
    [|repeat split; do 5 right; by exists t].
  all: repeat split; try done.
  all: try (unfold advanced_type_of_value in Hk; repeat case_bool_decide;
            try discriminate; injection Hk as <-; by subst).
  all: try apply lookup_insert_eq.
  all: try (intros s' Hs'; by apply lookup_insert_ne).
  all: tauto.
Qed.

(** ** The REST handlers *)

(** X25.  For an id that no book indexes the GET handler answers 400 and the
    DELETE handler 404 without touching the engine; the GET handler never
    answers 404. *)
Theorem unknown_order_id_answers_400_on_get_and_404_on_delete
    (order_id : string) (e : MatchingEngine.t) :
  not_indexed order_id e ->
  RestServer.get_order order_id e = RestServer.HTTPException 400
  /\ RestServer.cancel_order order_id e = (RestServer.HTTPException 404, e)
  /\ (forall id' e', RestServer.get_order id' e' <> RestServer.HTTPException 404).
Proof.
  intros H. split; [|split].
  - unfold RestServer.get_order, MatchingEngine.get_order.
    by rewrite (get_order_loop_none order_id _ _ H).
  - unfold RestServer.cancel_order, MatchingEngine.cancel_order, MatchingEngine.bind,
      MatchingEngine.gets.
    by rewrite (cancel_loop_not_found order_id _ H).
  - intros id' e'. unfold RestServer.get_order.
    by destruct (MatchingEngine.get_order id' e').
Qed.

(** X26.  The POST handler raises a 400 unless, for a FOK order, it returns
    the (rejected, unfilled) order document; its effect on the engine is
    that of [submit_order]. *)
Theorem posting_an_order_answers_400_unless_a_fok_is_rejected
    (order_request : RestServer.OrderRequest) (e : MatchingEngine.t) :
  let answer := fst (RestServer.submit_order order_request e) in
  (answer = RestServer.HTTPException 400
   \/ exists doc, answer = RestServer.Returned (doc, None)
                  /\ lower (RestServer.r_order_type order_request) = "fok"
                  /\ Order.d_status doc = status_value REJECTED
                  /\ Order.d_filled_quantity doc = 0)
  /\ snd (RestServer.submit_order order_request e)
     = snd (MatchingEngine.submit_order (RestServer.dict order_request) e).
Proof.
  cbn zeta. unfold RestServer.submit_order.
  destruct (MatchingEngine.submit_order (RestServer.dict order_request) e) as [r e'] eqn:Hs.
  cbn [fst snd]. split; [|done].
  apply submit_order_cases in Hs
    as [(_ & _ & x & ->)|[(sym & o & n & x & _ & _ & _ & ->)
                         |(sym & o & n & b & _ & Hcr & _ & Hc)]]; try by left.
  cbn zeta in Hc. destruct Hc as [(_ & _ & x & ->)|([Hfok _] & _ & _ & _ & Hres)]; [by left|].
  destruct Hres as [->|[x ->]]; [|by left].
  right. eexists. split; [reflexivity|].
  destruct Hcr as (_ & _ & (ty & raw & Ht & Hdt & Hlow & _) & _ & _ & _ & _ & Hfill & _).
  cbn in Hdt. injection Hdt as <-. rewrite Hfok in Ht. injection Ht as <-.
  split; [done|]. split; [done|]. cbn. done.
Qed.

(** X27.  Without a websocket manager, DELETE on an indexed id returns the
    cancelled order's document and remainder if the order is OPEN or
    PARTIAL, and answers 404 without any change otherwise. *)
Theorem deleting_an_indexed_order_answers_by_its_state
    (order_id : string) (e : MatchingEngine.t) (pre : list (string * OrderBook.t))
    (s : string) (b : OrderBook.t) (post : list (string * OrderBook.t)) (l : loc) :
  first_indexed order_id e pre s b post l ->
  (l < List.length (MatchingEngine.heap e))%nat ->
  MatchingEngine.websocket_manager e = None ->
  let o := Heap.deref (MatchingEngine.heap e) l in
  if cancellable (Order.status o) then
    fst (RestServer.cancel_order order_id e)
    = RestServer.Returned (Order.to_dict (Order.set_status CANCELLED o),
                           Order.remaining_qty o)
    /\ snd (RestServer.cancel_order order_id e)
       = MatchingEngine.set_heap
           (Heap.store (MatchingEngine.heap e) l (Order.set_status CANCELLED o))
           (MatchingEngine.set_order_books
              (pre ++ (s, snd (OrderBook.remove_order (MatchingEngine.heap e) b order_id))
                   :: post) e)
  else RestServer.cancel_order order_id e = (RestServer.HTTPException 404, e).
Proof.
  intros Hfirst Hvalid Hnone o.
  destruct (cancellable (Order.status o)) eqn:Hst.
  - pose proof (cancel_order_done order_id e pre s b post l Hfirst Hvalid Hst) as Hrun.
    cbn zeta in Hrun. fold o in Hrun.
    rewrite broadcast_without_manager in Hrun by done.
    unfold RestServer.cancel_order. rewrite Hrun. done.
  - unfold RestServer.cancel_order.
    rewrite (cancel_order_refused order_id e pre s b post l Hfirst Hst). done.
Qed.

(** X28.  [get_orderbook]: an unknown symbol is a ValueError (404) and no
    book is created; on a known symbol only the BBO cache may change, a
    snapshot carries the levels of [get_depth] and the answer of [get_bbo],
    and a dirty book with asks but no bids makes it raise IndexError (400). *)
Theorem get_orderbook_fails_on_unknown_symbols_and_on_asks_without_bids
    (symbol : string) (depth : Z) (e : MatchingEngine.t) :
  match MatchingEngine.books_get symbol (MatchingEngine.order_books e) with
  | None =>
    MatchingEngine.get_orderbook symbol depth e
    = (inl (MatchingEngine.Symbol_not_found symbol), e)
    /\ RestServer.get_orderbook symbol depth e = (RestServer.HTTPException 404, e)
  | Some b =>
    same_books (MatchingEngine.order_books e)
      (MatchingEngine.order_books (snd (MatchingEngine.get_orderbook symbol depth e)))
    /\ MatchingEngine.heap (snd (MatchingEngine.get_orderbook symbol depth e))
       = MatchingEngine.heap e
    /\ (forall bid_levels ask_levels bbo,
          fst (MatchingEngine.get_orderbook symbol depth e)
          = inr (bid_levels, ask_levels, bbo) ->
          (bid_levels, ask_levels) = OrderBook.get_depth (MatchingEngine.heap e) b depth
          /\ fst (OrderBook.get_bbo (MatchingEngine.heap e) b) = Ok bbo)
    /\ (OrderBook._bbo_dirty b = true -> OrderBook.bids b = [] -> OrderBook.asks b <> [] ->
        fst (MatchingEngine.get_orderbook symbol depth e)
        = inl (MatchingEngine.Orderbook_raised IndexError)
        /\ fst (RestServer.get_orderbook symbol depth e) = RestServer.HTTPException 400)
  end.
Proof.
  unfold RestServer.get_orderbook, MatchingEngine.get_orderbook.
  destruct (MatchingEngine.books_get symbol (MatchingEngine.order_books e)) as [b|] eqn:Hb;
    [|done].
  pose proof (get_bbo_same_content (MatchingEngine.heap e) b) as Hc.
  destruct (OrderBook.get_bbo (MatchingEngine.heap e) b) as [res b'] eqn:Hbbo.
  cbn [snd] in Hc.
  assert (Hsame : same_books (MatchingEngine.order_books e)
                    (MatchingEngine.books_set symbol b' (MatchingEngine.order_books e)))
    by (by eapply books_set_same).
  split; [by destruct res|]. split; [by destruct res|]. split.
  - intros bids asks bbo. destruct res as [c|x]; [|done]. cbn.
    intros [= <- <- <-]. split; [|done].
    reflexivity.
  - intros Hdirty Hbids Hasks.
    unfold OrderBook.get_bbo, OrderBook._recalculate_bbo, OrderBook.get_best_bid,
      OrderBook.get_best_ask in Hbbo.
    rewrite Hdirty, Hbids in Hbbo.
    destruct (OrderBook.asks b) as [|a r]; [done|]. cbn in Hbbo.
    injection Hbbo as <- <-. done.
Qed.

(** ** The remainder policy *)




(** ** Price tests *)

(** X30.  [is_marketable], [can_match_at_price] and the [price_check] of the
    walk agree, including the TypeError on a missing limit; no opposing
    price means not marketable; matching is monotone in the price. *)
Theorem the_three_price_tests_agree (o : Order.t) (p : Z) :
  Order.is_marketable o None = Ok false
  /\ Order.is_marketable o (Some p) = Order.can_match_at_price o p
  /\ (Order.type o <> Some MARKET ->
      MatchingEngine.price_check (bool_decide (Order.side o = Some BUY)) (Order.price o) p
      = Order.can_match_at_price o p)
  /\ (Order.type o <> Some MARKET -> Order.price o = None ->
      Order.can_match_at_price o p = Raise TypeError)
  /\ (forall limit p', Order.side o = Some BUY -> Order.price o = Some limit -> p' <= p ->
        Order.can_match_at_price o p = Ok true -> Order.can_match_at_price o p' = Ok true)
  /\ (forall limit p', Order.side o <> Some BUY -> Order.price o = Some limit -> p <= p' ->
        Order.can_match_at_price o p = Ok true -> Order.can_match_at_price o p' = Ok true).
Proof.
  unfold Order.is_marketable, Order.can_match_at_price, MatchingEngine.price_check.
  split; [done|]. split; [done|]. split; [|split; [|split]].
  - intros Hm. rewrite (bool_decide_false (Order.type o = Some MARKET)) by done.
    destruct (Order.price o); [|done]. by destruct (bool_decide (Order.side o = Some BUY)).
  - intros Hm ->. by rewrite (bool_decide_false (Order.type o = Some MARKET)).
  - intros limit p' Hs -> Hle. destruct (bool_decide (Order.type o = Some MARKET)); [done|].
    rewrite (bool_decide_true (Order.side o = Some BUY)) by done. intros [= H]. f_equal.
    apply Z.leb_le in H. apply Z.leb_le. lia.
  - intros limit p' Hs -> Hle. destruct (bool_decide (Order.type o = Some MARKET)); [done|].
    rewrite (bool_decide_false (Order.side o = Some BUY)) by done. intros [= H]. f_equal.
    apply Z.leb_le in H. apply Z.leb_le. lia.
Qed.

(** ** Instances *)

Lemma sample_add :
  OrderBook.add_order sample_store sample_book 3%nat
  = (Ok tt, (OrderBook.add_order sample_store sample_book 3%nat).1.2,
     (OrderBook.add_order sample_store sample_book 3%nat).2).
Proof. vm_compute. reflexivity. Defined.

Lemma sample_book_wf : book_wf sample_book.
Proof.
  unfold book_wf, sorted_keys, levels_nonempty.
  repeat split; vm_compute; repeat constructor; discriminate.
Defined.


Lemma add_order_refuses_a_known_id_witness :
  let r := OrderBook.add_order sample_store sample_book 3%nat in
  OrderBook.add_order r.1.2 r.2 3%nat
  = (Raise (ValueError (Order_already_exists "B3")), r.1.2, r.2).
Proof.
  intros r. apply (add_order_refuses_a_known_id _ _ _ _ _ sample_add 3%nat).
  vm_compute. reflexivity.
Defined.



Lemma get_best_bid_is_the_highest_bid_witness :
  OrderBook.get_best_bid sample_book = Ok (Some (49000, [1%nat; 2%nat]))
  /\ Forall (fun level : Z * list loc => level.1 <= 49000) (OrderBook.bids sample_book).
Proof.
  pose proof (get_best_bid_is_the_highest_bid sample_book
                ltac:(destruct sample_book_wf as [H _]; exact H)) as H.
  assert (Hb : OrderBook.get_best_bid sample_book = Ok (Some (49000, [1%nat; 2%nat])))
    by (vm_compute; reflexivity).
  rewrite Hb in H. split; [exact Hb|apply H].
Defined.

Lemma get_depth_lists_the_best_levels_first_witness :
  OrderBook.get_depth sample_store (OrderBook.add_order sample_store sample_book 3%nat).2 1
  = ([(49000, 3)], [(50000, 3)])
  /\ StronglySorted Z.gt
       (fst <$> (OrderBook.get_depth sample_store
                   (OrderBook.add_order sample_store sample_book 3%nat).2 10).1).
Proof.
  split; [vm_compute; reflexivity|].
  assert (Hwf : book_wf (OrderBook.add_order sample_store sample_book 3%nat).2)
    by (apply add_order_wf; exact sample_book_wf).
  destruct Hwf as (Hb & Ha & _).
  apply (get_depth_lists_the_best_levels_first sample_store _ 10 Hb Ha).
Defined.

Lemma get_bbo_answers_from_its_cache_witness :
  let b := OrderBook.set_side (Some SELL) [] sample_book in
  let r := OrderBook.get_bbo sample_store b in
  r.1 = Ok (OrderBook.mk_bbo (Some 49000) (Some 3) None (Some 0) None)
  /\ forall h' : Heap.t, OrderBook.get_bbo h' r.2 = r.
Proof.
  intros b r.
  assert (H : r = (Ok (OrderBook.mk_bbo (Some 49000) (Some 3) None (Some 0) None), r.2))
    by (vm_compute; reflexivity).
  split; [by rewrite H|].
  destruct (get_bbo_answers_from_its_cache sample_store b _ _ H) as (_ & _ & _ & _ & _ & Hc).
  intros h'. rewrite (Hc h'). by rewrite <- H.
Defined.



Lemma missing_field_is_rejected_before_any_effect_witness :
  MatchingEngine.submit_order
    (OrderData.mk (Some "O9") (Some "BTC-USDT") (Some "limit") None None (Some 50000) None)
    sample_engine
  = (MatchingEngine.ErrorResponse "O9" (ValueError (Missing_required_field "side")),
     sample_engine).
Proof.
  apply (missing_field_is_rejected_before_any_effect
           (OrderData.mk (Some "O9") (Some "BTC-USDT") (Some "limit") None None
              (Some 50000) None) sample_engine "side").
  reflexivity.
Defined.


Lemma sample_first_indexed :
  first_indexed "B1" sample_engine [] "BTC-USDT" sample_book [] 1%nat.
Proof. split; [reflexivity|]. split; [constructor|]. vm_compute. reflexivity. Defined.

Lemma cancel_order_acts_on_the_first_book_that_indexes_the_id_witness :
  exists e',
    MatchingEngine.cancel_order "B1" sample_engine
    = (Ok (Order.to_dict (Order.set_status CANCELLED (limit_object "B1" BUY 2 49000)), 2), e')
    /\ MatchingEngine.get_order "B1" e' = None
    /\ MatchingEngine.cancel_order "B1" e'
       = (Raise (ValueError (Order_not_found "B1")), e').
Proof.
  pose proof (cancel_order_acts_on_the_first_book_that_indexes_the_id "B1" sample_engine
                [] "BTC-USDT" sample_book [] 1%nat sample_first_indexed
                ltac:(vm_compute; repeat constructor)) as H.
  cbn zeta in H.
  assert (Hst : cancellable (Order.status (Heap.deref (MatchingEngine.heap sample_engine)
                                             1%nat)) = true) by (vm_compute; reflexivity).
  rewrite Hst in H.
  destruct H as (res & e' & Hrun & _ & _ & _ & Hres & Hafter).
  exists e'.
  destruct Hres as [->|[Hm _]]; [|by destruct Hm].
  destruct (Hafter ltac:(constructor)) as [Hget Hcancel].
  split; [|split; [exact Hget|exact Hcancel]].
  rewrite Hrun. reflexivity.
Defined.

Lemma logged_record_recreates_the_order_witness :
  let r := MatchingEngine._create_order_from_data (limit_order "buy" 1 50000) fresh_engine in
  let o := Heap.deref (MatchingEngine.heap r.2) 0%nat in
  exists l' e2,
    MatchingEngine._create_order_from_data (logged_data o) sample_engine = (Ok l', e2)
    /\ Heap.deref (MatchingEngine.heap e2) l' = o.
Proof.
  intros r o.
  assert (H : r = (Ok 0%nat, r.2)) by (vm_compute; reflexivity).
  destruct (logged_record_recreates_the_order _ _ _ _ H) as [_ Hre].
  specialize (Hre sample_engine). fold o in Hre.
  assert (Hp : bool_decide (Order.price o = Some 0) = false) by (vm_compute; reflexivity).
  rewrite Hp in Hre. exact Hre.
Defined.

Lemma maker_fee_never_exceeds_taker_fee_witness :
  (FeeCalculator.calculate_fees 50000 2 true "gold"
   <= FeeCalculator.calculate_fees 50000 2 false "gold")%Q
  /\ FeeCalculator.calculate_fees 50000 2 true "gold"
     = FeeCalculator.calculate_fees 50000 2 true "default".
Proof.
  destruct (maker_fee_never_exceeds_taker_fee 50000 2 "gold" ltac:(lia)) as (_ & Hle & Hd).
  split; [exact Hle|]. apply Hd. reflexivity.
Defined.

Lemma trigger_side_is_case_sensitive_but_submission_is_not_witness :
  let o := registered "A9" "BUY" STOP_LOSS 49000 None in
  fst (AdvancedOrder.check_trigger o 50000) = true
  /\ fst (AdvancedOrder.check_trigger (registered "A9" "buy" STOP_LOSS 49000 None) 50000)
     = false
  /\ Order.side
       (Heap.deref
          (MatchingEngine.heap
             (MatchingEngine._create_order_from_data (AdvancedOrder.to_limit_order o)
                fresh_engine).2) 0%nat)
     = Some BUY.
Proof.
  intros o.
  destruct (trigger_side_is_case_sensitive_but_submission_is_not o 50000
              ltac:(reflexivity) ltac:(discriminate) ltac:(reflexivity)) as [Ht Hside].
  split; [rewrite Ht; reflexivity|]. split; [reflexivity|].
  apply (Hside fresh_engine 0%nat). vm_compute. reflexivity.
Defined.

Lemma unknown_order_id_answers_400_on_get_and_404_on_delete_witness :
  RestServer.get_order "nobody" sample_engine = RestServer.HTTPException 400
  /\ RestServer.cancel_order "nobody" sample_engine
     = (RestServer.HTTPException 404, sample_engine).
Proof.
  assert (H : not_indexed "nobody" sample_engine)
    by (apply Forall_cons; split; [vm_compute; reflexivity|constructor]).
  destruct (unknown_order_id_answers_400_on_get_and_404_on_delete "nobody" sample_engine H)
    as (Hget & Hdel & _).
  split; [exact Hget|exact Hdel].
Defined.

Lemma deleting_an_indexed_order_answers_by_its_state_witness :
  fst (RestServer.cancel_order "B1" sample_engine)
  = RestServer.Returned
      (Order.to_dict (Order.set_status CANCELLED (limit_object "B1" BUY 2 49000)), 2).
Proof.
  pose proof (deleting_an_indexed_order_answers_by_its_state "B1" sample_engine
                [] "BTC-USDT" sample_book [] 1%nat sample_first_indexed
                ltac:(vm_compute; repeat constructor) eq_refl) as H.
  cbn zeta in H.
  assert (Hst : cancellable (Order.status (Heap.deref (MatchingEngine.heap sample_engine)
                                             1%nat)) = true) by (vm_compute; reflexivity).
  rewrite Hst in H. destruct H as [H _]. rewrite H. reflexivity.
Defined.

